(** * birdnet-go, package myaudio: PCM decoding and the processing pipeline

    A shallow embedding of [process.go]: the three little-endian PCM
    decoders ([convert16BitToFloat32], [convert24BitToFloat32],
    [convert32BitToFloat32]), their dispatcher [ConvertToFloat32], and the
    orchestration function [ProcessData] with its clock, its inference
    engine, its log and its bounded results channel.

    Conventions.
    - A Go [byte] is a [Byte.byte]; a [[]byte] is a [list byte].
    - Go's fixed-width signed integers are integers of [Z] together with
      the two's-complement wrap-around of their width.
    - A Go [float32] is an IEEE 754 binary32 number: a [spec_float] of the
      standard library used at precision 24 and maximal exponent 128.
    - A run-time panic (index out of range) is the [None] of the option
      monad; functions that Go lets panic return an [option]. *)

From Stdlib Require Import ZArith QArith Qpower Lia.
From Stdlib Require Import Strings.Byte.
From Stdlib Require Import Floats.FloatClass Floats.SpecFloat.
From stdpp Require Import base option list strings pretty.

Local Open Scope Z_scope.

(** ** Fixed-width integers *)

(** [wrap w z] is the value of [z] after conversion to a signed
    two's-complement integer of [w] bits. *)
Definition wrap (w : Z) (z : Z) : Z :=
  (z + 2 ^ (w - 1)) mod 2 ^ w - 2 ^ (w - 1).

Definition int16 (z : Z) : Z := wrap 16 z.
Definition int32 (z : Z) : Z := wrap 32 z.

(** The numeric value of a byte, as produced by [int16(b)] or [int32(b)]. *)
Definition byte_val (b : byte) : Z := Z.of_N (Byte.to_N b).

(** ** IEEE 754 binary32 *)

Definition float32 : Type := spec_float.

Definition f32_prec : Z := 24.
Definition f32_emax : Z := 128.

(** Conversion [float32(n)] of an integer: round to nearest, ties to even. *)
Definition float32_of_int (n : Z) : float32 :=
  binary_normalize f32_prec f32_emax n 0 false.

(** The quotient [x / y] of two [float32] values. *)
Definition f32_div (x y : float32) : float32 := SFdiv f32_prec f32_emax x y.

Definition f32_leb (x y : float32) : bool := SFleb x y.
Definition f32_ltb (x y : float32) : bool := SFltb x y.

Definition f32_zero : float32 := S754_zero false.
Definition f32_one : float32 := SFone f32_prec f32_emax.
Definition f32_minus_one : float32 := SFopp f32_one.

(** The rational number a finite [float32] stands for (0 for the others). *)
Definition f32_to_Q (x : float32) : Q :=
  match x with
  | S754_finite s m e =>
      ((if s then (-1) else 1) * inject_Z (Z.pos m) * (2 ^ e))%Q
  | _ => 0%Q
  end.

(** ** Slices *)

(** [float32Data[i] = v]: Go panics when [i] is out of range. *)
Definition store {A} (l : list A) (i : nat) (v : A) : option (list A) :=
  if decide (i < length l)%nat then Some (<[i := v]> l) else None.

(** [make([]float32, n)] *)
Definition make_float32 (n : nat) : list float32 := replicate n f32_zero.

(** ** The decoders *)

(** The sample assembled by one iteration of each loop. *)
Definition sample16 (b0 b1 : byte) : Z :=
  Z.lor (int16 (byte_val b0)) (int16 (Z.shiftl (int16 (byte_val b1)) 8)).

Definition sample24 (b0 b1 b2 : byte) : Z :=
  let sample :=
    Z.lor (Z.lor (int32 (byte_val b0))
                 (int32 (Z.shiftl (int32 (byte_val b1)) 8)))
          (int32 (Z.shiftl (int32 (byte_val b2)) 16)) in
  if Z.land sample 0x00800000 >? 0
  then Z.lor sample (Z.lnot 0x00FFFFFF)
  else sample.

Definition sample32 (b0 b1 b2 b3 : byte) : Z :=
  Z.lor (Z.lor (Z.lor (int32 (byte_val b0))
                      (int32 (Z.shiftl (int32 (byte_val b1)) 8)))
               (int32 (Z.shiftl (int32 (byte_val b2)) 16)))
        (int32 (Z.shiftl (int32 (byte_val b3)) 24)).

(** [for i := ...; i < length; i++ { ... }] with [n] iterations left. *)
Fixpoint loop16 (sample : list byte) (divisor : float32) (n i : nat)
    (float32Data : list float32) : option (list float32) :=
  match n with
  | O => Some float32Data
  | S n' =>
      b0 ← sample !! (i * 2)%nat;
      b1 ← sample !! (i * 2 + 1)%nat;
      let s := sample16 b0 b1 in
      float32Data ← store float32Data i (f32_div (float32_of_int s) divisor);
      loop16 sample divisor n' (S i) float32Data
  end.

Definition convert16BitToFloat32 (sample : list byte) : option (list float32) :=
  let length := (List.length sample / 2)%nat in
  let float32Data := make_float32 length in
  let divisor := float32_of_int 32768 in
  loop16 sample divisor length 0%nat float32Data.

Fixpoint loop24 (sample : list byte) (divisor : float32) (n i : nat)
    (float32Data : list float32) : option (list float32) :=
  match n with
  | O => Some float32Data
  | S n' =>
      b0 ← sample !! (i * 3)%nat;
      b1 ← sample !! (i * 3 + 1)%nat;
      b2 ← sample !! (i * 3 + 2)%nat;
      let s := sample24 b0 b1 b2 in
      float32Data ← store float32Data i (f32_div (float32_of_int s) divisor);
      loop24 sample divisor n' (S i) float32Data
  end.

Definition convert24BitToFloat32 (sample : list byte) : option (list float32) :=
  let length := (List.length sample / 3)%nat in
  let float32Data := make_float32 length in
  let divisor := float32_of_int 8388608 in
  loop24 sample divisor length 0%nat float32Data.

Fixpoint loop32 (sample : list byte) (divisor : float32) (n i : nat)
    (float32Data : list float32) : option (list float32) :=
  match n with
  | O => Some float32Data
  | S n' =>
      b0 ← sample !! (i * 4)%nat;
      b1 ← sample !! (i * 4 + 1)%nat;
      b2 ← sample !! (i * 4 + 2)%nat;
      b3 ← sample !! (i * 4 + 3)%nat;
      let s := sample32 b0 b1 b2 b3 in
      float32Data ← store float32Data i (f32_div (float32_of_int s) divisor);
      loop32 sample divisor n' (S i) float32Data
  end.

Definition convert32BitToFloat32 (sample : list byte) : option (list float32) :=
  let length := (List.length sample / 4)%nat in
  let float32Data := make_float32 length in
  let divisor := float32_of_int 2147483648 in
  loop32 sample divisor length 0%nat float32Data.

(** ** Errors *)

Inductive error : Type :=
  | errorString (s : string)                 (* errors.New(s) *)
  | wrapError (msg : string) (err : error).  (* fmt.Errorf(".. %w", err) *)

Definition Error (e : error) : string :=
  match e with
  | errorString s => s
  | wrapError msg _ => msg
  end.

Definition Unwrap (e : error) : option error :=
  match e with
  | errorString _ => None
  | wrapError _ err => Some err
  end.

(** [fmt.Errorf(prefix + "%w", err)] *)
Definition Errorf_w (prefix : string) (err : error) : error :=
  wrapError (prefix +:+ Error err) err.

(** ** ConvertToFloat32 *)

(** The result pair [([][]float32, error)]; a [nil] slice is the empty list
    and a [nil] error is [None]. *)
Definition ConvertToFloat32 (sample : list byte) (bitDepth : Z)
    : option (list (list float32) * option error) :=
  if bitDepth =? 16 then
    ch ← convert16BitToFloat32 sample; Some ([ch], None)
  else if bitDepth =? 24 then
    ch ← convert24BitToFloat32 sample; Some ([ch], None)
  else if bitDepth =? 32 then
    ch ← convert32BitToFloat32 sample; Some ([ch], None)
  else
    Some ([], Some (errorString "unsupported audio bit depth")).

(** ** The world around ProcessData *)

(** [time.Time] and [time.Duration], in nanoseconds. *)
Definition Time : Type := Z.
Definition Duration : Type := Z.

Definition NormalizedSampleSet : Type := list (list float32).

Section Pipeline.

(** [[]birdnet.Result], the output of the inference engine; package
    [birdnet] is outside this core and its payload is opaque here. *)
Variable Detections : Type.

(** [conf.BitDepth], a constant of package [conf]. *)
Variable BitDepth : Z.

(** Wall-clock time taken by a call of [ConvertToFloat32]. *)
Variable ConvertTime : list byte -> Z -> Duration.

(** [*birdnet.BirdNET]: what [Predict] returns on given samples and how
    long that call takes. *)
Record BirdNET : Type := {
  Predict : NormalizedSampleSet -> Detections * option error;
  PredictTime : NormalizedSampleSet -> Duration
}.

(** [queue.Results] *)
Record queue_Results : Type := {
  StartTime : Time;
  ElapsedTime : Duration;
  PCMdata : list byte;
  Results : Detections;
  Source : string
}.

(** A buffered channel [chan *Results]: its capacity and the messages
    sent and not yet received, oldest first.  The consumer is not part of
    the model: no goroutine is blocked in a receive while [ProcessData]
    runs (one that were would find the buffer empty). *)
Record Chan : Type := {
  chan_cap : nat;
  chan_buf : list queue_Results
}.

Record World : Type := {
  clock : Time;                         (* what time.Now() reads *)
  ResultsQueue : Chan;                  (* queue.ResultsQueue *)
  logged : list string;                 (* lines given to log.Println *)
  predicted : list NormalizedSampleSet  (* arguments bn.Predict was called on *)
}.

(** Computations over the world that may panic. *)
Definition M (A : Type) : Type := World -> option (A * World).

Definition ret {A} (a : A) : M A := fun w => Some (a, w).

Definition bind {A B} (m : M A) (k : A -> M B) : M B :=
  fun w => match m w with
           | Some (a, w') => k a w'
           | None => None
           end.

Definition elapse (d : Duration) (w : World) : World :=
  {| clock := clock w + d; ResultsQueue := ResultsQueue w;
     logged := logged w; predicted := predicted w |}.

Definition time_Now : M Time := fun w => Some (clock w, w).

Definition time_Since (t : Time) : M Duration :=
  fun w => Some (clock w - t, w).

(** A call of [ConvertToFloat32]: its result, and the time it takes. *)
Definition call_ConvertToFloat32 (sample : list byte) (bitDepth : Z)
    : M (NormalizedSampleSet * option error) :=
  fun w => match ConvertToFloat32 sample bitDepth with
           | Some r => Some (r, elapse (ConvertTime sample bitDepth) w)
           | None => None
           end.

(** A call of [bn.Predict]: recorded, and the time it takes. *)
Definition call_Predict (bn : BirdNET) (samples : NormalizedSampleSet)
    : M (Detections * option error) :=
  fun w =>
    Some (Predict bn samples,
          elapse (PredictTime bn samples)
            {| clock := clock w; ResultsQueue := ResultsQueue w;
               logged := logged w;
               predicted := predicted w ++ [samples] |}).

Definition log_Println (line : string) : M unit :=
  fun w => Some (tt, {| clock := clock w; ResultsQueue := ResultsQueue w;
                        logged := logged w ++ [line];
                        predicted := predicted w |}).

(** [select { case queue.ResultsQueue <- msg: onSent  default: onFull }]:
    the send goes through when the buffer has room, the default branch
    runs otherwise; neither waits. *)
Definition select_send (msg : queue_Results) (onSent onFull : M unit)
    : M unit :=
  fun w =>
    let ch := ResultsQueue w in
    if decide (length (chan_buf ch) < chan_cap ch)%nat then
      onSent {| clock := clock w;
                ResultsQueue := {| chan_cap := chan_cap ch;
                                   chan_buf := chan_buf ch ++ [msg] |};
                logged := logged w; predicted := predicted w |}
    else onFull w.

#[local] Instance M_ret : MRet M := @ret.
#[local] Instance M_bind : MBind M := fun A B k m => bind m k.

Definition logProcessingTime (startTime : Time) : M Duration :=
  elapsedTime ← time_Since startTime;
  mret elapsedTime.

Definition ProcessData (bn : BirdNET) (data : list byte) (startTime : Time)
    (source : string) : M (option error) :=
  predictStart ← time_Now;
  '(sampleData, err) ← call_ConvertToFloat32 data BitDepth;
  match err with
  | Some err =>
      mret (Some (Errorf_w ("error converting " +:+ pretty BitDepth +:+
                            " bit PCM data to float32: ") err))
  | None =>
      '(results, err) ← call_Predict bn sampleData;
      match err with
      | Some err => mret (Some (Errorf_w "error predicting species: " err))
      | None =>
          elapsedTime ← logProcessingTime predictStart;
          let resultsMessage :=
            {| StartTime := startTime;
               ElapsedTime := elapsedTime;
               PCMdata := data;
               Results := results;
               Source := source |} in
          select_send resultsMessage
            (mret ())
            (log_Println "Queue is full!");;
          mret None
      end
  end.

(** The message a successful call builds, given how long decoding and
    inference took. *)
Definition message (bn : BirdNET) (data : list byte) (startTime : Time)
    (source : string) (samples : NormalizedSampleSet) (results : Detections)
    : queue_Results :=
  {| StartTime := startTime;
     ElapsedTime := ConvertTime data BitDepth + PredictTime bn samples;
     PCMdata := data;
     Results := results;
     Source := source |}.

(** The world once decoding and inference are over. *)
Definition after_predict (bn : BirdNET) (data : list byte)
    (samples : NormalizedSampleSet) (w : World) : World :=
  {| clock := clock w + ConvertTime data BitDepth + PredictTime bn samples;
     ResultsQueue := ResultsQueue w;
     logged := logged w;
     predicted := predicted w ++ [samples] |}.

End Pipeline.

Arguments Predict {Detections} _ _.
Arguments PredictTime {Detections} _ _.
Arguments StartTime {Detections} _.
Arguments ElapsedTime {Detections} _.
Arguments PCMdata {Detections} _.
Arguments Results {Detections} _.
Arguments Source {Detections} _.
Arguments chan_cap {Detections} _.
Arguments chan_buf {Detections} _.
Arguments clock {Detections} _.
Arguments ResultsQueue {Detections} _.
Arguments logged {Detections} _.
Arguments predicted {Detections} _.
Arguments ProcessData {Detections} BitDepth ConvertTime bn data startTime source _.
Arguments message {Detections} BitDepth ConvertTime bn data startTime source samples results.
Arguments after_predict {Detections} BitDepth ConvertTime bn data samples w.
Arguments M Detections A : clear implicits.
Arguments ret {Detections A} a _.
Arguments bind {Detections A B} m k _.
Arguments select_send {Detections} msg onSent onFull _.
Arguments log_Println {Detections} line _.
Arguments elapse {Detections} d w.

(** ** Reference readings of a sample *)

(** The unsigned value of a group of bytes, low byte first. *)
Fixpoint le_unsigned (bs : list byte) : Z :=
  match bs with
  | [] => 0
  | b :: bs => byte_val b + 256 * le_unsigned bs
  end.

(** The two's-complement reading of a [w]-bit unsigned value. *)
Definition signed (w : Z) (u : Z) : Z :=
  if u <? 2 ^ (w - 1) then u else u - 2 ^ w.

Definition le_signed (w : Z) (bs : list byte) : Z := signed w (le_unsigned bs).

(** Sign extension of a 24-bit value to 32 bits: when bit 23 is set, all
    the bits above it are set and the result is read as a signed 32-bit
    integer. *)
Definition sign_extend24 (u : Z) : Z :=
  if Z.testbit u 23 then int32 (Z.lor u 0xFF000000) else u.

(** The [i]-th group of [w] bytes of a buffer. *)
Definition group (w : nat) (sample : list byte) (i : nat) : list byte :=
  take w (drop (i * w) sample).

(** The reference decoder for samples of [w] bytes: the [i]-th sample is
    the signed little-endian integer of the [i]-th group, divided by
    [2^(8w-1)]; an incomplete last group is dropped. *)
Definition pcm_sample (w : nat) (sample : list byte) (i : nat) : float32 :=
  f32_div (float32_of_int (le_signed (8 * Z.of_nat w) (group w sample i)))
          (float32_of_int (2 ^ (8 * Z.of_nat w - 1))).

Definition pcm_decode (w : nat) (sample : list byte) : list float32 :=
  pcm_sample w sample <$> seq 0 (length sample / w).

(** ** Auxiliary definitions for the proofs *)

(** The common shape of the three loops: [f i] is the value computed for
    index [i], or a panic. *)
Fixpoint loop_gen (f : nat -> option float32) (n i : nat)
    (float32Data : list float32) : option (list float32) :=
  match n with
  | O => Some float32Data
  | S n' =>
      v ← f i;
      float32Data ← store float32Data i v;
      loop_gen f n' (S i) float32Data
  end.

Definition at16 (sample : list byte) (divisor : float32) (i : nat) : option float32 :=
  b0 ← sample !! (i * 2)%nat;
  b1 ← sample !! (i * 2 + 1)%nat;
  Some (f32_div (float32_of_int (sample16 b0 b1)) divisor).

Definition at24 (sample : list byte) (divisor : float32) (i : nat) : option float32 :=
  b0 ← sample !! (i * 3)%nat;
  b1 ← sample !! (i * 3 + 1)%nat;
  b2 ← sample !! (i * 3 + 2)%nat;
  Some (f32_div (float32_of_int (sample24 b0 b1 b2)) divisor).

Definition at32 (sample : list byte) (divisor : float32) (i : nat) : option float32 :=
  b0 ← sample !! (i * 4)%nat;
  b1 ← sample !! (i * 4 + 1)%nat;
  b2 ← sample !! (i * 4 + 2)%nat;
  b3 ← sample !! (i * 4 + 3)%nat;
  Some (f32_div (float32_of_int (sample32 b0 b1 b2 b3)) divisor).

(** ** A concrete run, used to exercise the statements *)

(** An engine that always reports one detection and takes 7 ns. *)
Definition bn_ok : BirdNET (list (string * Z)) :=
  {| Predict := fun _ => ([("Turdus merula", 9)], None);
     PredictTime := fun _ => 7 |}.

(** An engine that always fails. *)
Definition bn_fail : BirdNET (list (string * Z)) :=
  {| Predict := fun _ => ([], Some (errorString "interpreter invoke failed"));
     PredictTime := fun _ => 7 |}.

(** A world at time 100 whose queue has room for [cap] messages. *)
Definition world0 (cap : nat) : World (list (string * Z)) :=
  {| clock := 100;
     ResultsQueue := {| chan_cap := cap; chan_buf := [] |};
     logged := [];
     predicted := [] |}.

(** Decoding takes 5 ns. *)
Definition convert_5ns : list byte -> Z -> Duration := fun _ _ => 5.

(** ** Several buffers *)

(** A caller that hands buffers to [ProcessData] one after the other, as
    the capture loop does, and collects the returned errors. *)
Fixpoint ProcessAll {Detections : Type} (BitDepth : Z)
    (ConvertTime : list byte -> Z -> Duration) (bn : BirdNET Detections)
    (bufs : list (list byte * Time * string))
    : M Detections (list (option error)) :=
  match bufs with
  | [] => ret []
  | (data, startTime, source) :: rest =>
      bind (ProcessData BitDepth ConvertTime bn data startTime source)
        (fun r =>
           bind (ProcessAll BitDepth ConvertTime bn rest)
             (fun rs => ret (r :: rs)))
  end.

(** What a queued message keeps of the call that made it. *)
Definition origin {Detections : Type} (msg : queue_Results Detections)
    : list byte * Time * string :=
  (PCMdata msg, StartTime msg, Source msg).

(** ** Reference rounding *)

(** [p] without its low [n] bits, rounded to nearest with ties to even:
    the quotient by [2^n], plus one when the remainder is above half of
    [2^n], or at half with an odd quotient. *)
Definition round_half_even (p n : Z) : Z :=
  let q := p / 2 ^ n in
  let r := p mod 2 ^ n in
  let half := 2 ^ (n - 1) in
  if r <? half then q
  else if half <? r then q + 1
  else if Z.even q then q else q + 1.

(** The integer that [float32(z)] stands for: [z] itself when it has at
    most 24 binary digits, otherwise [z] rounded to 24 significant digits. *)
Definition float32_int_value (z : Z) : Z :=
  let n := Z.log2 (Z.abs z) + 1 - 24 in
  if n <=? 0 then z
  else Z.sgn z * (round_half_even (Z.abs z) n * 2 ^ n).

(** * Properties *)

(** ** Binary digits *)

Lemma digits2_pos_bounds (p : positive) :
  2 ^ (Z.pos (digits2_pos p) - 1) <= Z.pos p < 2 ^ Z.pos (digits2_pos p).
Proof.
  induction p as [p IH|p IH|]; cbn [digits2_pos].
  - rewrite Pos2Z.inj_succ, Z.pow_succ_r by lia.
    replace (Z.succ (Z.pos (digits2_pos p)) - 1) with (Z.succ (Z.pos (digits2_pos p) - 1)) by lia.
    rewrite Z.pow_succ_r by lia. lia.
  - rewrite Pos2Z.inj_succ, Z.pow_succ_r by lia.
    replace (Z.succ (Z.pos (digits2_pos p)) - 1) with (Z.succ (Z.pos (digits2_pos p) - 1)) by lia.
    rewrite Z.pow_succ_r by lia. lia.
  - simpl. lia.
Qed.

Lemma digits2_pos_unique (p : positive) (d : Z) :
  2 ^ (d - 1) <= Z.pos p < 2 ^ d -> Z.pos (digits2_pos p) = d.
Proof.
  intros [Hlo Hhi]. pose proof (digits2_pos_bounds p) as [Hlo' Hhi'].
  assert (0 < d).
  { destruct (Z.ltb_spec 0 d) as [|Hd]; [done|].
    rewrite (Z.pow_neg_r 2 (d - 1)) in Hlo by lia.
    assert (2 ^ d <= 2 ^ 0) by (destruct (Z.eq_dec d 0) as [->|]; [done|rewrite Z.pow_neg_r by lia; done]).
    simpl in *; lia. }
  destruct (Z.lt_trichotomy (Z.pos (digits2_pos p)) d) as [Hlt|[Heq|Hgt]]; [|done|].
  - assert (2 ^ Z.pos (digits2_pos p) <= 2 ^ (d - 1)) by (apply Z.pow_le_mono_r; lia). lia.
  - assert (2 ^ d <= 2 ^ (Z.pos (digits2_pos p) - 1)) by (apply Z.pow_le_mono_r; lia). lia.
Qed.

Lemma iter_xO_val (m k : positive) :
  Z.pos (Pos.iter xO m k) = Z.pos m * 2 ^ Z.pos k.
Proof.
  induction k as [|k IH] using Pos.peano_ind.
  - simpl. lia.
  - rewrite Pos.iter_succ, Pos2Z.inj_succ, Z.pow_succ_r by lia.
    rewrite Pos2Z.inj_xO, IH. lia.
Qed.

Lemma iter_xO_digits (m k : positive) :
  digits2_pos (Pos.iter xO m k) = (digits2_pos m + k)%positive.
Proof.
  induction k as [|k IH] using Pos.peano_ind.
  - simpl. lia.
  - rewrite Pos.iter_succ. cbn [digits2_pos]. rewrite IH. lia.
Qed.

(** ** Rounding to binary32 *)

(** A mantissa of exactly 24 binary digits with an exponent in range is
    left alone by the rounding step. *)
Lemma binary_round_aux_canonical (s : bool) (m : positive) (e : Z) :
  digits2_pos m = 24%positive -> -149 <= e <= 104 ->
  binary_round_aux f32_prec f32_emax s (Z.pos m) e loc_Exact = S754_finite s m e.
Proof.
  intros Hd He.
  unfold binary_round_aux, shr_fexp, Zdigits2, fexp, emin, f32_prec, f32_emax.
  rewrite Hd.
  replace (Z.max (24 + e - 24) (3 - 128 - 24) - e) with 0 by lia.
  cbn [shr shr_record_of_loc shr_m loc_of_shr_record round_nearest_even Zdigits2].
  rewrite Hd.
  replace (Z.max (24 + e - 24) (3 - 128 - 24) - e) with 0 by lia.
  cbn [shr shr_record_of_loc shr_m].
  destruct (Z.leb_spec e (128 - 24)); [done | lia].
Qed.

(** Integers of at most 24 binary digits convert without rounding. *)
Lemma binary_round_exact (s : bool) (p : positive) :
  Z.pos (digits2_pos p) <= 24 ->
  exists m,
    binary_round f32_prec f32_emax s p 0 = S754_finite s m (Z.pos (digits2_pos p) - 24)
    /\ digits2_pos m = 24%positive
    /\ Z.pos m = Z.pos p * 2 ^ (24 - Z.pos (digits2_pos p)).
Proof.
  intros Hd.
  unfold binary_round, shl_align, fexp, emin, f32_prec, f32_emax.
  replace (Z.max (Z.pos (digits2_pos p) + 0 - 24) (3 - 128 - 24) - 0)
    with (Z.pos (digits2_pos p) - 24) by lia.
  destruct (Z.pos (digits2_pos p) - 24) as [|k|k] eqn:Hk; [|lia|].
  - exists p. assert (Hp : digits2_pos p = 24%positive) by lia.
    split; [|split].
    + apply binary_round_aux_canonical; [done | lia].
    + done.
    + rewrite Hp. simpl. lia.
  - exists (Pos.iter xO p k).
    assert (Hdk : digits2_pos (Pos.iter xO p k) = 24%positive)
      by (rewrite iter_xO_digits; lia).
    split; [|split].
    + replace (Z.max (Z.pos (digits2_pos p) + 0 - 24) (3 - 128 - 24)) with (Z.neg k) by lia.
      apply binary_round_aux_canonical; [done | lia].
    + done.
    + rewrite iter_xO_val. f_equal. f_equal. lia.
Qed.

(** Division of a normal number by a power of two only moves the exponent. *)
Lemma f32_div_pow2 (s : bool) (m : positive) (e k : Z) :
  digits2_pos m = 24%positive -> -148 <= e - k <= 104 ->
  f32_div (S754_finite s m e) (S754_finite false 8388608 (k - 23))
  = S754_finite s m (e - k).
Proof.
  intros Hd He.
  unfold f32_div, SFdiv, SFdiv_core_binary, Zdigits2, fexp, emin, f32_prec, f32_emax.
  rewrite Hd.
  change (digits2_pos 8388608) with 24%positive.
  replace (Z.min (Z.max (24 + e - (24 + (k - 23)) - 24) (3 - 128 - 24)) (e - (k - 23)))
    with (e - k - 1) by lia.
  replace (e - (k - 23) - (e - k - 1)) with 24 by lia.
  assert (Hdiv : Z.div_eucl (Z.shiftl (Z.pos m) 24) 8388608 = (Z.pos m~0, 0)).
  { rewrite Z.shiftl_mul_pow2 by lia.
    pose proof (Z.div_eucl_eq (Z.pos m * 2 ^ 24) 8388608 ltac:(lia)) as Heq.
    pose proof (Z.mod_pos_bound (Z.pos m * 2 ^ 24) 8388608 ltac:(lia)) as Hb.
    unfold Z.modulo in Hb.
    destruct (Z.div_eucl (Z.pos m * 2 ^ 24) 8388608) as [q r].
    change (2 ^ 24) with 16777216 in *.
    f_equal; lia. }
  rewrite Hdiv.
  change (new_location 8388608 0) with loc_Exact.
  rewrite xorb_false_r.
  unfold binary_round_aux, shr_fexp, Zdigits2, fexp, emin.
  cbn [digits2_pos]. rewrite Hd.
  change (Z.pos (Pos.succ 24)) with 25.
  replace (Z.max (25 + (e - k - 1) - 24) (3 - 128 - 24) - (e - k - 1)) with 1 by lia.
  cbn [shr shr_record_of_loc SpecFloat.iter_pos shr_1 shr_m loc_of_shr_record orb
       round_nearest_even Zdigits2].
  rewrite Hd.
  replace (Z.max (24 + (e - k - 1 + 1) - 24) (3 - 128 - 24) - (e - k - 1 + 1)) with 0 by lia.
  cbn [shr shr_m].
  destruct (Z.leb_spec (e - k - 1 + 1) (128 - 24)); [|lia].
  f_equal. lia.
Qed.

(** Shifting right: the mantissa that [shr_1] leaves is the half. *)
Lemma shr_1_m (mrs : shr_record) :
  0 <= shr_m mrs -> shr_m (shr_1 mrs) = shr_m mrs / 2.
Proof.
  destruct mrs as [m r s]. cbn [shr_m]. intros Hm.
  rewrite <- Z.div2_div.
  destruct m as [|[q|q|]|q]; cbn [shr_1 shr_m]; try reflexivity; lia.
Qed.

Lemma iter_shr_1_m (n : positive) :
  forall mrs, 0 <= shr_m mrs ->
    shr_m (SpecFloat.iter_pos shr_1 n mrs) = shr_m mrs / 2 ^ Z.pos n.
Proof.
  induction n as [n IH|n IH|]; intros mrs Hm; cbn [SpecFloat.iter_pos].
  - assert (H1 : 0 <= shr_m (shr_1 mrs))
      by (rewrite shr_1_m by done; apply Z.div_pos; lia).
    assert (H2 : 0 <= shr_m (SpecFloat.iter_pos shr_1 n (shr_1 mrs)))
      by (rewrite IH by done; apply Z.div_pos; lia).
    rewrite IH, IH, shr_1_m by done.
    rewrite !Z.div_div by lia. f_equal.
    rewrite (Pos2Z.inj_xI n), Z.pow_add_r, Z.pow_mul_r, Z.pow_1_r by lia.
    change (2 ^ 2) with 4.
    replace (4 ^ Z.pos n) with (2 ^ Z.pos n * 2 ^ Z.pos n); [lia|].
    rewrite <- Z.pow_mul_l. done.
  - assert (H2 : 0 <= shr_m (SpecFloat.iter_pos shr_1 n mrs))
      by (rewrite IH by done; apply Z.div_pos; lia).
    rewrite IH, IH by done.
    rewrite !Z.div_div by lia. f_equal.
    rewrite (Pos2Z.inj_xO n), Z.pow_mul_r by lia.
    change (2 ^ 2) with 4.
    rewrite <- Z.pow_mul_l. done.
  - rewrite shr_1_m by done. done.
Qed.

Lemma round_nearest_even_range (m : Z) (l : location) :
  m <= round_nearest_even m l <= m + 1.
Proof.
  destruct l as [|[]]; cbn [round_nearest_even]; try lia.
  destruct (Z.even m); lia.
Qed.

(** Integers of 25 to 32 binary digits are rounded to 24 digits: the
    exponent is the number of digits dropped, or one more when rounding
    carries into a new power of two. *)
Lemma binary_round_large (s : bool) (p : positive) :
  24 < Z.pos (digits2_pos p) <= 32 ->
  exists m e,
    binary_round f32_prec f32_emax s p 0 = S754_finite s m e
    /\ digits2_pos m = 24%positive
    /\ (e = Z.pos (digits2_pos p) - 24
        \/ (e = Z.pos (digits2_pos p) - 23 /\ m = 8388608%positive)).
Proof.
  intros Hd.
  pose proof (digits2_pos_bounds p) as Hp.
  set (d := Z.pos (digits2_pos p)) in *.
  unfold binary_round, shl_align, fexp, emin, f32_prec, f32_emax.
  fold d.
  replace (Z.max (d + 0 - 24) (3 - 128 - 24) - 0) with (d - 24) by lia.
  destruct (d - 24) as [|k|k] eqn:Hk; [lia| |lia].
  unfold binary_round_aux, shr_fexp, Zdigits2, fexp, emin. fold d.
  replace (Z.max (d + 0 - 24) (3 - 128 - 24) - 0) with (Z.pos k) by lia.
  cbn [shr shr_record_of_loc].
  set (mrs := SpecFloat.iter_pos shr_1 k _).
  assert (Hm0 : shr_m mrs = Z.pos p / 2 ^ Z.pos k)
    by (unfold mrs; rewrite iter_shr_1_m; [done | cbn [shr_m]; lia]).
  assert (Hpow : 2 ^ (d - 1) = 2 ^ 23 * 2 ^ Z.pos k /\ 2 ^ d = 2 ^ 24 * 2 ^ Z.pos k).
  { rewrite <- !Z.pow_add_r by lia. split; f_equal; lia. }
  destruct Hpow as [Hpow1 Hpow2].
  assert (Hpk : 0 < 2 ^ Z.pos k) by (apply Z.pow_pos_nonneg; lia).
  assert (Hrange : 2 ^ 23 <= shr_m mrs < 2 ^ 24).
  { rewrite Hm0. split.
    - apply Z.div_le_lower_bound; lia.
    - apply Z.div_lt_upper_bound; lia. }
  pose proof (round_nearest_even_range (shr_m mrs) (loc_of_shr_record mrs)) as Hr.
  destruct (round_nearest_even (shr_m mrs) (loc_of_shr_record mrs)) as [|q|q] eqn:Hq;
    [lia| |lia].
  destruct (Z.eq_dec (Z.pos q) (2 ^ 24)) as [Heq|Hne].
  - assert (q = 16777216%positive) as -> by (change (2 ^ 24) with 16777216 in Heq; lia).
    change (digits2_pos 16777216) with 25%positive.
    replace (Z.max (25 + (0 + Z.pos k) - 24) (3 - 128 - 24) - (0 + Z.pos k)) with 1 by lia.
    cbn [shr shr_record_of_loc SpecFloat.iter_pos shr_1 shr_m].
    destruct (Z.leb_spec (0 + Z.pos k + 1) (128 - 24)); [|lia].
    exists 8388608%positive, (0 + Z.pos k + 1). split; [done|]. split; [done|].
    right. split; [lia|done].
  - assert (Hdq : digits2_pos q = 24%positive).
    { assert (Z.pos (digits2_pos q) = 24); [|lia].
      apply digits2_pos_unique. change (24 - 1) with 23. lia. }
    rewrite Hdq.
    replace (Z.max (24 + (0 + Z.pos k) - 24) (3 - 128 - 24) - (0 + Z.pos k)) with 0 by lia.
    cbn [shr shr_record_of_loc shr_m].
    destruct (Z.leb_spec (0 + Z.pos k) (128 - 24)); [|lia].
    exists q, (0 + Z.pos k). split; [done|]. split; [done|].
    left. lia.
Qed.

Lemma pow2_le_inv (a b : Z) : 0 <= b -> 2 ^ a <= 2 ^ b -> a <= b.
Proof.
  intros Hb H. destruct (Z.le_gt_cases a b) as [|Hgt]; [done|].
  assert (2 ^ b < 2 ^ a) by (apply Z.pow_lt_mono_r; lia). lia.
Qed.

(** What [float32(z)] is for a non-zero [z] between [-2^j] and [2^j]: a
    normal number of the sign of [z], at most [2^j] in magnitude, and
    equal to [z] when [z] has at most 24 binary digits. *)
Lemma binary_round_spec (s : bool) (p : positive) (j : Z) :
  0 <= j <= 31 -> Z.pos p <= 2 ^ j ->
  exists m e,
    binary_round f32_prec f32_emax s p 0 = S754_finite s m e
    /\ digits2_pos m = 24%positive
    /\ -23 <= e
    /\ (e + 24 <= j \/ (e + 23 = j /\ m = 8388608%positive))
    /\ (Z.pos p < 2 ^ 24 -> e <= 0 /\ Z.pos m = Z.pos p * 2 ^ (- e)).
Proof.
  intros Hj Hp.
  pose proof (digits2_pos_bounds p) as Hb.
  set (d := Z.pos (digits2_pos p)) in *.
  assert (Hd1 : 1 <= d) by (unfold d; lia).
  assert (Hdj : d - 1 <= j) by (apply pow2_le_inv; lia).
  destruct (Z.le_gt_cases d 24) as [Hsmall|Hlarge].
  - destruct (binary_round_exact s p Hsmall) as (m & Hm & Hdm & Hval).
    fold d in Hm, Hval.
    exists m, (d - 24). split; [done|]. split; [done|]. split; [lia|]. split.
    + destruct (Z.eq_dec d (j + 1)) as [Heq|Hne]; [right|left; lia].
      split; [lia|].
      assert (Z.pos p = 2 ^ j) by (replace j with (d - 1) in * by lia; lia).
      assert (Z.pos m = 2 ^ 23); [|change (2 ^ 23) with 8388608 in *; lia].
      rewrite Hval. replace (Z.pos p) with (2 ^ j). rewrite <- Z.pow_add_r by lia.
      f_equal. lia.
    + intros _. split; [lia|]. rewrite Hval. do 2 f_equal. lia.
  - destruct (Z.eq_dec (Z.pos p) (2 ^ j)) as [Heq|Hne].
    + assert (Hjd : j = d - 1).
      { destruct (Z.le_gt_cases d j) as [Hle|]; [|lia].
        assert (2 ^ d <= 2 ^ j) by (apply Z.pow_le_mono_r; lia). lia. }
      assert (Hcases : j = 24 \/ j = 25 \/ j = 26 \/ j = 27 \/ j = 28 \/ j = 29
                       \/ j = 30 \/ j = 31) by lia.
      assert (Hbig : 2 ^ 24 <= Z.pos p).
      { rewrite Heq. apply Z.pow_le_mono_r; lia. }
      destruct Hcases as [->|[->|[->|[->|[->|[->|[->| ->]]]]]]];
        (assert (Hpv : p = Z.to_pos (Z.pos p)) by done; rewrite Heq in Hpv;
         vm_compute in Hpv; subst p;
         eexists _, _; split; [destruct s; vm_compute; reflexivity|];
         split; [reflexivity|]; split; [lia|]; split; [right; split; [lia|reflexivity]|];
         intros Hlt; vm_compute in Hlt; discriminate Hlt).
    + assert (Hlt : Z.pos p < 2 ^ j) by lia.
      assert (Hdj' : d <= j).
      { assert (d - 1 < j); [|lia].
        destruct (Z.lt_ge_cases (d - 1) j) as [|Hge]; [done|].
        assert (2 ^ j <= 2 ^ (d - 1)) by (apply Z.pow_le_mono_r; lia). lia. }
      destruct (binary_round_large s p) as (m & e & Hm & Hdm & He); [fold d; lia|].
      fold d in He.
      exists m, e. split; [done|]. split; [done|]. split; [lia|]. split.
      * destruct He as [->|[-> ->]]; [left; lia|].
        destruct (Z.eq_dec d j); [right; split; [lia|done] | left; lia].
      * intros Hc. assert (2 ^ 24 <= 2 ^ (d - 1)) by (apply Z.pow_le_mono_r; lia). lia.
Qed.

(** ** Comparison with the ends of the unit range *)

Lemma f32_one_eq : f32_one = S754_finite false 8388608 (-23).
Proof. reflexivity. Qed.

Lemma f32_minus_one_eq : f32_minus_one = S754_finite true 8388608 (-23).
Proof. reflexivity. Qed.

Lemma f32_leb_one (s : bool) (m : positive) (e : Z) :
  s = true \/ e < -23 \/ (e = -23 /\ m = 8388608%positive) ->
  f32_leb (S754_finite s m e) f32_one = true.
Proof.
  rewrite f32_one_eq. unfold f32_leb, SFleb, SFcompare.
  intros [->|[He|[-> ->]]]; [done| |destruct s; done].
  destruct s; [done|].
  assert (Hc : IntDef.Z.compare e (-23) = Lt) by (by apply Z.compare_lt_iff).
  by rewrite Hc.
Qed.

Lemma f32_ltb_one (s : bool) (m : positive) (e : Z) :
  s = true \/ e < -23 ->
  f32_ltb (S754_finite s m e) f32_one = true.
Proof.
  rewrite f32_one_eq. unfold f32_ltb, SFltb, SFcompare.
  intros [->|He]; [done|].
  destruct s; [done|].
  assert (Hc : IntDef.Z.compare e (-23) = Lt) by (by apply Z.compare_lt_iff).
  by rewrite Hc.
Qed.

Lemma f32_leb_minus_one (s : bool) (m : positive) (e : Z) :
  s = false \/ e < -23 \/ (e = -23 /\ m = 8388608%positive) ->
  f32_leb f32_minus_one (S754_finite s m e) = true.
Proof.
  rewrite f32_minus_one_eq. unfold f32_leb, SFleb, SFcompare.
  intros [->|[He|[-> ->]]]; [done| |destruct s; done].
  destruct s; [|done].
  assert (Hc : IntDef.Z.compare (-23) e = Gt) by (by apply Z.compare_gt_iff).
  by rewrite Hc.
Qed.

(** ** One decoded sample *)

Lemma float32_of_pow2 (j : Z) :
  j = 15 \/ j = 23 \/ j = 31 ->
  float32_of_int (2 ^ j) = S754_finite false 8388608 (j - 23).
Proof. intros [->|[->| ->]]; reflexivity. Qed.

(** The quotient stored for an integer sample [z] of magnitude at most
    [2^j], when the divisor is [2^j]. *)
Lemma sample_spec (j z : Z) :
  j = 15 \/ j = 23 \/ j = 31 -> - 2 ^ j <= z <= 2 ^ j -> z <> 0 ->
  exists m e,
    f32_div (float32_of_int z) (float32_of_int (2 ^ j)) = S754_finite (z <? 0) m e
    /\ digits2_pos m = 24%positive
    /\ (e < -23 \/ (e = -23 /\ m = 8388608%positive))
    /\ (Z.abs z < 2 ^ 24 -> e + j <= 0 /\ Z.pos m = Z.abs z * 2 ^ (- (e + j))).
Proof.
  intros Hj Hz Hz0.
  assert (Hj' : 0 <= j <= 31) by lia.
  rewrite float32_of_pow2 by done.
  assert (Hgen : forall s p, Z.pos p <= 2 ^ j ->
    exists m e,
      f32_div (binary_round f32_prec f32_emax s p 0) (S754_finite false 8388608 (j - 23))
      = S754_finite s m e
      /\ digits2_pos m = 24%positive
      /\ (e < -23 \/ (e = -23 /\ m = 8388608%positive))
      /\ (Z.pos p < 2 ^ 24 -> e + j <= 0 /\ Z.pos m = Z.pos p * 2 ^ (- (e + j)))).
  { intros s p Hp.
    destruct (binary_round_spec s p j Hj' Hp) as (m & e & -> & Hd & He & Hle & Hex).
    exists m, (e - j). rewrite f32_div_pow2 by (done || lia).
    split; [done|]. split; [done|]. split; [lia|].
    intros Hlt. destruct (Hex Hlt) as [He0 Hm].
    replace (e - j + j) with e by lia. done. }
  destruct z as [|p|p]; [done| |].
  - apply Hgen. lia.
  - apply Hgen. lia.
Qed.

Lemma sample_zero (y : positive) (e : Z) :
  f32_div (float32_of_int 0) (S754_finite false y e) = S754_zero false.
Proof. reflexivity. Qed.

(** Every sample lies between -1.0 and +1.0. *)
Lemma sample_unit_range (j z : Z) :
  j = 15 \/ j = 23 \/ j = 31 -> - 2 ^ j <= z <= 2 ^ j ->
  let x := f32_div (float32_of_int z) (float32_of_int (2 ^ j)) in
  f32_leb f32_minus_one x = true /\ f32_leb x f32_one = true.
Proof.
  intros Hj Hz x. subst x.
  destruct (Z.eq_dec z 0) as [->|Hz0].
  - rewrite float32_of_pow2 by done. rewrite sample_zero. done.
  - destruct (sample_spec j z Hj Hz Hz0) as (m & e & -> & _ & He & _).
    split.
    + apply f32_leb_minus_one. lia.
    + apply f32_leb_one. lia.
Qed.

(** Below [2^j], and with at most 24 digits, it is strictly below +1.0. *)
Lemma sample_lt_one (j z : Z) :
  j = 15 \/ j = 23 -> - 2 ^ j <= z < 2 ^ j ->
  f32_ltb (f32_div (float32_of_int z) (float32_of_int (2 ^ j))) f32_one = true.
Proof.
  intros Hj Hz.
  destruct (Z.eq_dec z 0) as [->|Hz0].
  - rewrite float32_of_pow2 by lia. rewrite sample_zero. done.
  - assert (Hj3 : j = 15 \/ j = 23 \/ j = 31) by lia.
    assert (H24 : 2 ^ j < 2 ^ 24) by (apply Z.pow_lt_mono_r; lia).
    destruct (sample_spec j z Hj3 ltac:(lia) Hz0) as (m & e & -> & Hd & He & Hex).
    apply f32_ltb_one.
    destruct (Z.ltb_spec z 0) as [Hneg|Hpos]; [by left|right].
    destruct He as [He|[-> ->]]; [done|].
    destruct Hex as [_ Hm]; [lia|].
    rewrite Z.abs_eq in Hm by lia.
    assert (2 ^ 23 = 2 ^ j * 2 ^ (- (-23 + j))) as Hp
      by (rewrite <- Z.pow_add_r by lia; f_equal; lia).
    assert (0 < 2 ^ (- (-23 + j))) by (apply Z.pow_pos_nonneg; lia).
    change (Z.pos 8388608) with (2 ^ 23) in Hm. nia.
Qed.

(** ** The exact value of a sample *)

Lemma Q_of_mul (x : Q) (s : Z) (n : positive) :
  (x * inject_Z (Z.pos n) == inject_Z s)%Q -> (x == s # n)%Q.
Proof.
  destruct x as [a b]. unfold Qeq. cbn [Qnum Qden Qmult inject_Z]. lia.
Qed.

Lemma Q_pow2_cancel (a e j : Z) :
  0 <= a -> 0 <= j -> a + e + j = 0 ->
  (inject_Z (2 ^ a) * 2 ^ e * inject_Z (2 ^ j) == 1)%Q.
Proof.
  intros Ha Hj H.
  rewrite !Zpower_Qpower by done.
  change (inject_Z 2) with 2%Q.
  rewrite <- !Qpower_plus by done.
  rewrite H. reflexivity.
Qed.

Lemma Q_sign_abs (z : Z) :
  ((if z <? 0 then -1 else 1) * inject_Z (Z.abs z) == inject_Z z)%Q.
Proof.
  destruct (Z.ltb_spec z 0).
  - rewrite Z.abs_neq by lia. rewrite inject_Z_opp. ring.
  - rewrite Z.abs_eq by lia. ring.
Qed.

(** With at most 24 binary digits nothing is rounded: the sample is the
    rational [z / 2^j]. *)
Lemma sample_value (j z : Z) (n : positive) :
  j = 15 \/ j = 23 \/ j = 31 -> Z.pos n = 2 ^ j ->
  - 2 ^ j <= z <= 2 ^ j -> Z.abs z < 2 ^ 24 ->
  (f32_to_Q (f32_div (float32_of_int z) (float32_of_int (2 ^ j))) == z # n)%Q.
Proof.
  intros Hj Hn Hz Hz24.
  destruct (Z.eq_dec z 0) as [->|Hz0].
  - rewrite float32_of_pow2 by done. rewrite sample_zero. reflexivity.
  - destruct (sample_spec j z Hj Hz Hz0) as (m & e & -> & _ & _ & Hex).
    destruct (Hex Hz24) as [Hej Hm].
    apply Q_of_mul. cbn [f32_to_Q]. rewrite Hm, Hn, inject_Z_mult.
    pose proof (Q_pow2_cancel (- (e + j)) e j ltac:(lia) ltac:(lia) ltac:(lia)) as Hc.
    pose proof (Q_sign_abs z) as Hs.
    set (A := inject_Z (2 ^ (- (e + j)))) in *.
    set (E := (2 ^ e)%Q) in *.
    set (J := inject_Z (2 ^ j)) in *.
    set (sg := (if z <? 0 then (-1)%Q else 1%Q)) in *.
    set (Z' := inject_Z (Z.abs z)) in *.
    transitivity ((sg * Z') * (A * E * J))%Q; [ring|].
    rewrite Hc, Hs. ring.
Qed.

(** ** Bytes and fixed-width integers *)

Lemma byte_val_range (b : byte) : 0 <= byte_val b < 256.
Proof.
  unfold byte_val. pose proof (Byte.to_N_bounded b). lia.
Qed.

Lemma int16_eq (z : Z) : int16 z = (z + 32768) mod 65536 - 32768.
Proof. reflexivity. Qed.

Lemma int32_eq (z : Z) : int32 z = (z + 2147483648) mod 4294967296 - 2147483648.
Proof. reflexivity. Qed.

Lemma int16_small (z : Z) : -32768 <= z < 32768 -> int16 z = z.
Proof. intros H. rewrite int16_eq. Z.div_mod_to_equations. lia. Qed.

Lemma int32_small (z : Z) : -2147483648 <= z < 2147483648 -> int32 z = z.
Proof. intros H. rewrite int32_eq. Z.div_mod_to_equations. lia. Qed.

Lemma testbit_small (a k : Z) : 0 <= a < 2 ^ k -> Z.testbit a k = false.
Proof.
  intros [H0 Hk]. destruct (Z.eq_dec a 0) as [->|Hne]; [apply Z.bits_0|].
  apply Z.bits_above_log2; [done|]. apply Z.log2_lt_pow2; lia.
Qed.

(** Bits that do not overlap: the bitwise or is the sum. *)
Lemma lor_disjoint (a c n : Z) :
  0 <= n -> 0 <= a < 2 ^ n -> Z.lor a (c * 2 ^ n) = a + c * 2 ^ n.
Proof.
  intros Hn Ha.
  assert (Hland : Z.land a (c * 2 ^ n) = 0).
  { apply Z.bits_inj'. intros k Hk. rewrite Z.land_spec, Z.bits_0.
    destruct (Z.lt_ge_cases k n) as [Hlt|Hge].
    - rewrite Z.mul_pow2_bits_low by lia. apply andb_false_r.
    - rewrite testbit_small; [done|]. split; [lia|].
      assert (2 ^ n <= 2 ^ k) by (apply Z.pow_le_mono_r; lia). lia. }
  pose proof (Z.add_lor_land a (c * 2 ^ n)). lia.
Qed.

Lemma testbit_top (u n : Z) :
  0 <= n -> 0 <= u < 2 ^ (n + 1) -> Z.testbit u n = (2 ^ n <=? u).
Proof.
  intros Hn Hu. rewrite Z.pow_add_r, Z.pow_1_r in Hu by lia.
  assert (0 < 2 ^ n) by (apply Z.pow_pos_nonneg; lia).
  rewrite Z.testbit_eqb by done.
  destruct (Z.leb_spec (2 ^ n) u).
  - assert (u / 2 ^ n = 1) as ->; [|done].
    symmetry. apply (Z.div_unique u (2 ^ n) 1 (u - 2 ^ n)); lia.
  - rewrite Z.div_small by lia. done.
Qed.

Lemma land_pow2 (u n : Z) :
  0 <= n -> Z.land u (2 ^ n) = if Z.testbit u n then 2 ^ n else 0.
Proof.
  intros Hn. apply Z.bits_inj'. intros k Hk.
  rewrite Z.land_spec, Z.pow2_bits_eqb by done.
  destruct (Z.eqb_spec n k) as [->|Hne].
  - destruct (Z.testbit u k); [|by rewrite Z.bits_0].
    rewrite Z.pow2_bits_true by done. done.
  - rewrite andb_false_r. destruct (Z.testbit u n); [|by rewrite Z.bits_0].
    rewrite Z.pow2_bits_false by done. done.
Qed.

(** ** The integer sample of each depth *)

Lemma sample16_signed (b0 b1 : byte) : sample16 b0 b1 = le_signed 16 [b0; b1].
Proof.
  pose proof (byte_val_range b0). pose proof (byte_val_range b1).
  unfold sample16, le_signed, signed. cbn [le_unsigned].
  rewrite (int16_small (byte_val b0)), (int16_small (byte_val b1)) by lia.
  rewrite Z.shiftl_mul_pow2 by lia. rewrite int16_eq.
  change (2 ^ (16 - 1)) with 32768. change (2 ^ 16) with 65536.
  destruct (Z.ltb_spec (byte_val b1) 128).
  - replace ((byte_val b1 * 2 ^ 8 + 32768) mod 65536 - 32768)
      with (byte_val b1 * 2 ^ 8) by (change (2 ^ 8) with 256; Z.div_mod_to_equations; lia).
    rewrite lor_disjoint by (change (2 ^ 8) with 256; lia).
    change (2 ^ 8) with 256. destruct (Z.ltb_spec (byte_val b0 + 256 * (byte_val b1 + 256 * 0)) 32768); lia.
  - replace ((byte_val b1 * 2 ^ 8 + 32768) mod 65536 - 32768)
      with ((byte_val b1 - 256) * 2 ^ 8) by (change (2 ^ 8) with 256; Z.div_mod_to_equations; lia).
    rewrite lor_disjoint by (change (2 ^ 8) with 256; lia).
    change (2 ^ 8) with 256. destruct (Z.ltb_spec (byte_val b0 + 256 * (byte_val b1 + 256 * 0)) 32768); lia.
Qed.

Lemma le_unsigned_range (bs : list byte) :
  0 <= le_unsigned bs < 2 ^ (8 * Z.of_nat (length bs)).
Proof.
  induction bs as [|b bs IH]; [done|].
  cbn [le_unsigned length]. pose proof (byte_val_range b).
  replace (8 * Z.of_nat (S (length bs))) with (8 + 8 * Z.of_nat (length bs)) by lia.
  rewrite Z.pow_add_r by lia. change (2 ^ 8) with 256. nia.
Qed.

(** The bytes of a 24-bit group, or-ed together without sign extension. *)
Lemma lor3_unsigned (b0 b1 b2 : byte) :
  Z.lor (Z.lor (int32 (byte_val b0)) (int32 (Z.shiftl (int32 (byte_val b1)) 8)))
        (int32 (Z.shiftl (int32 (byte_val b2)) 16))
  = le_unsigned [b0; b1; b2].
Proof.
  pose proof (byte_val_range b0). pose proof (byte_val_range b1).
  pose proof (byte_val_range b2).
  cbn [le_unsigned].
  rewrite (int32_small (byte_val b0)), (int32_small (byte_val b1)),
    (int32_small (byte_val b2)) by lia.
  rewrite !Z.shiftl_mul_pow2 by lia.
  change (2 ^ 8) with 256. change (2 ^ 16) with 65536.
  rewrite !int32_small by lia.
  change 256 with (2 ^ 8) at 1. rewrite lor_disjoint by (change (2 ^ 8) with 256; lia).
  change 65536 with (2 ^ 16) at 1. rewrite lor_disjoint by (change (2 ^ 8) with 256; change (2 ^ 16) with 65536; lia).
  change (2 ^ 8) with 256. change (2 ^ 16) with 65536. lia.
Qed.

Lemma sample24_extend (b0 b1 b2 : byte) :
  sample24 b0 b1 b2 = sign_extend24 (le_unsigned [b0; b1; b2]).
Proof.
  pose proof (le_unsigned_range [b0; b1; b2]) as Hu.
  unfold sample24. rewrite lor3_unsigned.
  set (u := le_unsigned [b0; b1; b2]) in *.
  change (8 * Z.of_nat (length [b0; b1; b2])) with 24 in Hu.
  change (2 ^ 24) with 16777216 in Hu.
  unfold sign_extend24.
  change 0x00800000 with (2 ^ 23). rewrite land_pow2 by lia.
  destruct (Z.testbit u 23) eqn:Hb; [|done].
  change (2 ^ 23 >? 0) with true. cbv iota.
  change (Z.lnot 0x00FFFFFF) with ((-1) * 2 ^ 24).
  rewrite lor_disjoint by (change (2 ^ 24) with 16777216; lia).
  change 0xFF000000 with (255 * 2 ^ 24).
  rewrite lor_disjoint by (change (2 ^ 24) with 16777216; lia).
  rewrite int32_eq. change (2 ^ 24) with 16777216.
  Z.div_mod_to_equations. lia.
Qed.

Lemma sign_extend24_signed (u : Z) :
  0 <= u < 2 ^ 24 -> sign_extend24 u = signed 24 u.
Proof.
  intros Hu. unfold sign_extend24, signed.
  rewrite (testbit_top u 23) by (done || lia).
  change (2 ^ (24 - 1)) with (2 ^ 23).
  change (2 ^ 24) with 16777216 in *. change (2 ^ 23) with 8388608.
  destruct (Z.leb_spec 8388608 u), (Z.ltb_spec u 8388608); try lia.
  change 0xFF000000 with (255 * 2 ^ 24).
  rewrite lor_disjoint by (change (2 ^ 24) with 16777216; lia).
  rewrite int32_eq. change (2 ^ 24) with 16777216.
  Z.div_mod_to_equations. lia.
Qed.

Lemma sample24_signed (b0 b1 b2 : byte) :
  sample24 b0 b1 b2 = le_signed 24 [b0; b1; b2].
Proof.
  rewrite sample24_extend. apply sign_extend24_signed.
  apply (le_unsigned_range [b0; b1; b2]).
Qed.

Lemma sample32_signed (b0 b1 b2 b3 : byte) :
  sample32 b0 b1 b2 b3 = le_signed 32 [b0; b1; b2; b3].
Proof.
  pose proof (le_unsigned_range [b0; b1; b2]) as Hu.
  pose proof (byte_val_range b3).
  unfold sample32. rewrite lor3_unsigned.
  unfold le_signed, signed.
  change (le_unsigned [b0; b1; b2; b3])
    with (byte_val b0 + 256 * (byte_val b1 + 256 * (byte_val b2 + 256 * (byte_val b3 + 256 * 0)))).
  cbn [le_unsigned] in *.
  set (u := byte_val b0 + 256 * (byte_val b1 + 256 * (byte_val b2 + 256 * 0))) in *.
  change (8 * Z.of_nat (length [b0; b1; b2])) with 24 in Hu.
  rewrite (int32_small (byte_val b3)) by lia.
  rewrite Z.shiftl_mul_pow2 by lia. rewrite int32_eq.
  change (2 ^ (32 - 1)) with 2147483648. change (2 ^ 32) with 4294967296.
  destruct (Z.ltb_spec (byte_val b3) 128).
  - replace ((byte_val b3 * 2 ^ 24 + 2147483648) mod 4294967296 - 2147483648)
      with (byte_val b3 * 2 ^ 24) by (change (2 ^ 24) with 16777216; Z.div_mod_to_equations; lia).
    rewrite lor_disjoint by lia.
    change (2 ^ 24) with 16777216 in *.
    match goal with |- context [?a <? ?b] => destruct (Z.ltb_spec a b) end; unfold u in *; lia.
  - replace ((byte_val b3 * 2 ^ 24 + 2147483648) mod 4294967296 - 2147483648)
      with ((byte_val b3 - 256) * 2 ^ 24) by (change (2 ^ 24) with 16777216; Z.div_mod_to_equations; lia).
    rewrite lor_disjoint by lia.
    change (2 ^ 24) with 16777216 in *.
    match goal with |- context [?a <? ?b] => destruct (Z.ltb_spec a b) end; unfold u in *; lia.
Qed.

Lemma le_signed_range (w : Z) (bs : list byte) :
  w = 8 * Z.of_nat (length bs) -> 0 < w ->
  - 2 ^ (w - 1) <= le_signed w bs < 2 ^ (w - 1).
Proof.
  intros Hw Hpos. pose proof (le_unsigned_range bs) as Hu. rewrite <- Hw in Hu.
  unfold le_signed, signed.
  assert (2 ^ w = 2 * 2 ^ (w - 1)) as Hp.
  { replace w with (1 + (w - 1)) at 1 by lia. rewrite Z.pow_add_r by lia. done. }
  destruct (Z.ltb_spec (le_unsigned bs) (2 ^ (w - 1))); lia.
Qed.

(** ** The loops *)

Lemma loop16_gen sample divisor n :
  forall i data, loop16 sample divisor n i data = loop_gen (at16 sample divisor) n i data.
Proof.
  induction n as [|n IH]; intros i data; [done|].
  cbn [loop16 loop_gen]. unfold at16.
  destruct (sample !! (i * 2)%nat) as [b0|]; [|done].
  destruct (sample !! (i * 2 + 1)%nat) as [b1|]; [|done].
  cbn. destruct (store data i _) as [data'|]; [|done]. cbn. apply IH.
Qed.

Lemma loop24_gen sample divisor n :
  forall i data, loop24 sample divisor n i data = loop_gen (at24 sample divisor) n i data.
Proof.
  induction n as [|n IH]; intros i data; [done|].
  cbn [loop24 loop_gen]. unfold at24.
  destruct (sample !! (i * 3)%nat) as [b0|]; [|done].
  destruct (sample !! (i * 3 + 1)%nat) as [b1|]; [|done].
  destruct (sample !! (i * 3 + 2)%nat) as [b2|]; [|done].
  cbn. destruct (store data i _) as [data'|]; [|done]. cbn. apply IH.
Qed.

Lemma loop32_gen sample divisor n :
  forall i data, loop32 sample divisor n i data = loop_gen (at32 sample divisor) n i data.
Proof.
  induction n as [|n IH]; intros i data; [done|].
  cbn [loop32 loop_gen]. unfold at32.
  destruct (sample !! (i * 4)%nat) as [b0|]; [|done].
  destruct (sample !! (i * 4 + 1)%nat) as [b1|]; [|done].
  destruct (sample !! (i * 4 + 2)%nat) as [b2|]; [|done].
  destruct (sample !! (i * 4 + 3)%nat) as [b3|]; [|done].
  cbn. destruct (store data i _) as [data'|]; [|done]. cbn. apply IH.
Qed.

(** A loop whose body succeeds on every index it visits overwrites
    exactly the slots [i .. i+n-1], in order, and does not panic. *)
Lemma loop_gen_spec (f : nat -> option float32) (g : nat -> float32) (n : nat) :
  forall i data,
    (forall k, (i <= k < i + n)%nat -> f k = Some (g k)) ->
    (i + n <= length data)%nat ->
    loop_gen f n i data
    = Some (take i data ++ (g <$> seq i n) ++ drop (i + n) data).
Proof.
  induction n as [|n IH]; intros i data Hf Hlen.
  - cbn. rewrite Nat.add_0_r, take_drop. done.
  - cbn [loop_gen]. rewrite (Hf i) by lia. cbn.
    unfold store. destruct (decide (i < length data)%nat) as [Hi|]; [|lia]. cbn.
    rewrite IH; [|intros k Hk; apply Hf; lia|rewrite length_insert; lia].
    f_equal.
    rewrite (take_S_r _ _ (g i)) by (by apply list_lookup_insert_eq).
    rewrite take_insert_ge by lia.
    rewrite drop_insert_lt by lia.
    cbn [seq fmap list_fmap]. rewrite <- app_assoc. cbn.
    by replace (i + S n)%nat with (S (i + n)) by lia.
Qed.

Lemma group_lookup2 (sample : list byte) (i : nat) b0 b1 :
  sample !! (i * 2)%nat = Some b0 -> sample !! (i * 2 + 1)%nat = Some b1 ->
  group 2 sample i = [b0; b1].
Proof.
  intros H0 H1. unfold group.
  rewrite (drop_S _ b0 _ H0).
  replace (i * 2 + 1)%nat with (S (i * 2)) in H1 by lia.
  rewrite (drop_S _ b1 _ H1). done.
Qed.

Lemma group_lookup3 (sample : list byte) (i : nat) b0 b1 b2 :
  sample !! (i * 3)%nat = Some b0 -> sample !! (i * 3 + 1)%nat = Some b1 ->
  sample !! (i * 3 + 2)%nat = Some b2 ->
  group 3 sample i = [b0; b1; b2].
Proof.
  intros H0 H1 H2. unfold group.
  rewrite (drop_S _ b0 _ H0).
  replace (i * 3 + 1)%nat with (S (i * 3)) in H1 by lia.
  rewrite (drop_S _ b1 _ H1).
  replace (i * 3 + 2)%nat with (S (S (i * 3))) in H2 by lia.
  rewrite (drop_S _ b2 _ H2). done.
Qed.

Lemma group_lookup4 (sample : list byte) (i : nat) b0 b1 b2 b3 :
  sample !! (i * 4)%nat = Some b0 -> sample !! (i * 4 + 1)%nat = Some b1 ->
  sample !! (i * 4 + 2)%nat = Some b2 -> sample !! (i * 4 + 3)%nat = Some b3 ->
  group 4 sample i = [b0; b1; b2; b3].
Proof.
  intros H0 H1 H2 H3. unfold group.
  rewrite (drop_S _ b0 _ H0).
  replace (i * 4 + 1)%nat with (S (i * 4)) in H1 by lia.
  rewrite (drop_S _ b1 _ H1).
  replace (i * 4 + 2)%nat with (S (S (i * 4))) in H2 by lia.
  rewrite (drop_S _ b2 _ H2).
  replace (i * 4 + 3)%nat with (S (S (S (i * 4)))) in H3 by lia.
  rewrite (drop_S _ b3 _ H3). done.
Qed.

Lemma div_mul_le (n w : nat) : (0 < w)%nat -> (n / w * w <= n)%nat.
Proof. intros Hw. rewrite Nat.mul_comm. apply Nat.Div0.mul_div_le. Qed.

Ltac lookup_in sample j b H :=
  destruct (lookup_lt_is_Some_2 sample j) as [b H]; [nia|].

Lemma at16_pcm (sample : list byte) (k : nat) :
  (k < length sample / 2)%nat ->
  at16 sample (float32_of_int 32768) k = Some (pcm_sample 2 sample k).
Proof.
  intros Hk. pose proof (div_mul_le (length sample) 2 ltac:(lia)).
  lookup_in sample (k * 2)%nat b0 H0.
  lookup_in sample (k * 2 + 1)%nat b1 H1.
  unfold at16, pcm_sample. rewrite H0, H1. cbn.
  rewrite (group_lookup2 _ _ _ _ H0 H1), sample16_signed. done.
Qed.

Lemma at24_pcm (sample : list byte) (k : nat) :
  (k < length sample / 3)%nat ->
  at24 sample (float32_of_int 8388608) k = Some (pcm_sample 3 sample k).
Proof.
  intros Hk. pose proof (div_mul_le (length sample) 3 ltac:(lia)).
  lookup_in sample (k * 3)%nat b0 H0.
  lookup_in sample (k * 3 + 1)%nat b1 H1.
  lookup_in sample (k * 3 + 2)%nat b2 H2.
  unfold at24, pcm_sample. rewrite H0, H1, H2. cbn.
  rewrite (group_lookup3 _ _ _ _ _ H0 H1 H2), sample24_signed. done.
Qed.

Lemma at32_pcm (sample : list byte) (k : nat) :
  (k < length sample / 4)%nat ->
  at32 sample (float32_of_int 2147483648) k = Some (pcm_sample 4 sample k).
Proof.
  intros Hk. pose proof (div_mul_le (length sample) 4 ltac:(lia)).
  lookup_in sample (k * 4)%nat b0 H0.
  lookup_in sample (k * 4 + 1)%nat b1 H1.
  lookup_in sample (k * 4 + 2)%nat b2 H2.
  lookup_in sample (k * 4 + 3)%nat b3 H3.
  unfold at32, pcm_sample. rewrite H0, H1, H2, H3. cbn.
  rewrite (group_lookup4 _ _ _ _ _ _ H0 H1 H2 H3), sample32_signed. done.
Qed.

Lemma loop_gen_fresh (f : nat -> option float32) (g : nat -> float32) (n : nat) :
  (forall k, (k < n)%nat -> f k = Some (g k)) ->
  loop_gen f n 0 (make_float32 n) = Some (g <$> seq 0 n).
Proof.
  intros Hf. rewrite (loop_gen_spec f g); [|intros k Hk; apply Hf; lia|].
  - rewrite take_0, drop_ge by (unfold make_float32; rewrite length_replicate; lia).
    cbn. by rewrite app_nil_r.
  - unfold make_float32. rewrite length_replicate. lia.
Qed.

(** Each decoder returns, without panic, what the reference decoder says. *)
Lemma convert16_decode (sample : list byte) :
  convert16BitToFloat32 sample = Some (pcm_decode 2 sample).
Proof.
  unfold convert16BitToFloat32. rewrite loop16_gen.
  apply loop_gen_fresh. intros k Hk. by apply at16_pcm.
Qed.

Lemma convert24_decode (sample : list byte) :
  convert24BitToFloat32 sample = Some (pcm_decode 3 sample).
Proof.
  unfold convert24BitToFloat32. rewrite loop24_gen.
  apply loop_gen_fresh. intros k Hk. by apply at24_pcm.
Qed.

Lemma convert32_decode (sample : list byte) :
  convert32BitToFloat32 sample = Some (pcm_decode 4 sample).
Proof.
  unfold convert32BitToFloat32. rewrite loop32_gen.
  apply loop_gen_fresh. intros k Hk. by apply at32_pcm.
Qed.

(** ** ConvertToFloat32 *)

Lemma ConvertToFloat32_supported (sample : list byte) (d : Z) :
  d = 16 \/ d = 24 \/ d = 32 ->
  ConvertToFloat32 sample d = Some ([pcm_decode (Z.to_nat (d / 8)) sample], None).
Proof.
  unfold ConvertToFloat32.
  intros [->|[->| ->]]; cbn [Z.eqb Pos.eqb].
  - by rewrite convert16_decode.
  - by rewrite convert24_decode.
  - by rewrite convert32_decode.
Qed.

Lemma pcm_decode_length (w : nat) (sample : list byte) :
  length (pcm_decode w sample) = (length sample / w)%nat.
Proof. unfold pcm_decode. by rewrite length_fmap, length_seq. Qed.

Lemma pcm_decode_lookup (w : nat) (sample : list byte) (i : nat) :
  (i < length sample / w)%nat ->
  pcm_decode w sample !! i = Some (pcm_sample w sample i).
Proof.
  intros Hi. unfold pcm_decode.
  rewrite list_lookup_fmap, lookup_seq_lt by done. done.
Qed.

Lemma group_length (w : nat) (sample : list byte) (i : nat) :
  (i < length sample / w)%nat -> length (group w sample i) = w.
Proof.
  intros Hi. destruct w as [|w]; [done|].
  pose proof (div_mul_le (length sample) (S w) ltac:(lia)).
  unfold group. rewrite length_take, length_drop. nia.
Qed.

(** C4. For the supported depths 16, 24 and 32, [ConvertToFloat32]
    returns without error exactly one channel, whose length is the byte
    length divided by the sample width in bytes, rounded down; a 16-bit
    decode of five bytes gives two samples. *)
Theorem ConvertToFloat32_one_channel (sample : list byte) (d : Z) :
  d = 16 \/ d = 24 \/ d = 32 ->
  exists ch,
    ConvertToFloat32 sample d = Some ([ch], None)
    /\ length ch = (length sample / Z.to_nat (d / 8))%nat
    /\ (d = 16 -> length sample = 5%nat -> length ch = 2%nat).
Proof.
  intros Hd. exists (pcm_decode (Z.to_nat (d / 8)) sample).
  split; [by apply ConvertToFloat32_supported|].
  split; [apply pcm_decode_length|].
  intros -> H5. rewrite pcm_decode_length, H5. done.
Qed.

Lemma ConvertToFloat32_one_channel_witness :
  exists ch,
    ConvertToFloat32 [x00; x80; xff; x7f; x01] 16 = Some ([ch], None)
    /\ length ch = 2%nat.
Proof.
  destruct (ConvertToFloat32_one_channel [x00; x80; xff; x7f; x01] 16)
    as (ch & Hch & _ & H5); [by left|].
  exists ch. split; [exact Hch | by apply H5].
Defined.

(** ** Concatenation *)

Lemma group_app_l (w : nat) (a b : list byte) (i : nat) :
  (i < length a / w)%nat -> group w (a ++ b) i = group w a i.
Proof.
  intros Hi. destruct w as [|w]; [done|].
  pose proof (div_mul_le (length a) (S w) ltac:(lia)).
  unfold group. rewrite drop_app_le by nia.
  rewrite take_app_le; [done|]. rewrite length_drop. nia.
Qed.

Lemma group_app_r (w : nat) (a b : list byte) (k i : nat) :
  length a = (k * w)%nat -> group w (a ++ b) (k + i) = group w b i.
Proof.
  intros Ha. unfold group. rewrite drop_app_ge by nia.
  do 2 f_equal. nia.
Qed.

Lemma pcm_decode_app (w : nat) (a b : list byte) :
  (0 < w)%nat -> (length a mod w = 0)%nat ->
  pcm_decode w (a ++ b) = pcm_decode w a ++ pcm_decode w b.
Proof.
  intros Hw Hmod.
  assert (Ha : length a = (length a / w * w)%nat).
  { pose proof (Nat.div_mod_eq (length a) w). nia. }
  set (k := (length a / w)%nat) in *.
  unfold pcm_decode. rewrite length_app.
  replace ((length a + length b) / w)%nat with (k + length b / w)%nat.
  2:{ rewrite Ha. by rewrite Nat.div_add_l by lia. }
  fold k. rewrite seq_app, fmap_app. f_equal.
  - apply list_eq. intros i. rewrite !list_lookup_fmap.
    destruct (seq 0 k !! i) as [j|] eqn:Hj; [|done]. cbn.
    apply lookup_seq in Hj as [-> Hlt].
    unfold pcm_sample. rewrite group_app_l by (fold k; lia). done.
  - apply list_eq. intros i. rewrite !list_lookup_fmap.
    destruct (Nat.lt_ge_cases i (length b / w)) as [Hlt|Hge].
    + rewrite !lookup_seq_lt by done. cbn.
      unfold pcm_sample. rewrite group_app_r by done. done.
    + rewrite !lookup_seq_ge by done. done.
Qed.

(** C10. For a supported depth, decoding a concatenation [a ++ b] whose
    first part is a whole number of samples gives the channel of [a]
    followed by the channel of [b]. *)
Theorem ConvertToFloat32_app (d : Z) (a b : list byte) :
  d = 16 \/ d = 24 \/ d = 32 ->
  (length a mod Z.to_nat (d / 8) = 0)%nat ->
  exists ca cb,
    ConvertToFloat32 a d = Some ([ca], None)
    /\ ConvertToFloat32 b d = Some ([cb], None)
    /\ ConvertToFloat32 (a ++ b) d = Some ([ca ++ cb], None).
Proof.
  intros Hd Hmod.
  exists (pcm_decode (Z.to_nat (d / 8)) a), (pcm_decode (Z.to_nat (d / 8)) b).
  rewrite !ConvertToFloat32_supported by done.
  split; [done|]. split; [done|].
  rewrite pcm_decode_app; [done| |done].
  destruct Hd as [->|[->| ->]];
    [change (0 < 2)%nat|change (0 < 3)%nat|change (0 < 4)%nat]; lia.
Qed.

Lemma ConvertToFloat32_app_witness :
  exists ca cb,
    ConvertToFloat32 [x00; x00; x80; xff; xff; x7f] 24 = Some ([ca], None)
    /\ ConvertToFloat32 [x01; x02; x03; x04] 24 = Some ([cb], None)
    /\ ConvertToFloat32 ([x00; x00; x80; xff; xff; x7f] ++ [x01; x02; x03; x04]) 24
       = Some ([ca ++ cb], None).
Proof.
  apply (ConvertToFloat32_app 24 [x00; x00; x80; xff; xff; x7f] [x01; x02; x03; x04]).
  - right. left. reflexivity.
  - reflexivity.
Defined.

(** ** The value of each sample *)

Lemma lookup_index_lt (sample : list byte) (w i r : nat) (b : byte) :
  (r + 1 = w)%nat -> sample !! (w * i + r)%nat = Some b ->
  (i < length sample / w)%nat.
Proof.
  intros Hr Hb. apply lookup_lt_Some in Hb.
  apply (Nat.div_le_lower_bound (length sample) w (S i)); lia.
Qed.

Lemma pcm_sample16 (sample : list byte) (i : nat) (b0 b1 : byte) :
  sample !! (2 * i)%nat = Some b0 -> sample !! (2 * i + 1)%nat = Some b1 ->
  pcm_sample 2 sample i
  = f32_div (float32_of_int (le_signed 16 [b0; b1])) (float32_of_int (2 ^ 15)).
Proof.
  intros H0 H1. unfold pcm_sample.
  rewrite (group_lookup2 sample i b0 b1); [done| |];
    [by rewrite Nat.mul_comm | by rewrite (Nat.mul_comm i 2)].
Qed.

Lemma pcm_sample24 (sample : list byte) (i : nat) (b0 b1 b2 : byte) :
  sample !! (3 * i)%nat = Some b0 -> sample !! (3 * i + 1)%nat = Some b1 ->
  sample !! (3 * i + 2)%nat = Some b2 ->
  pcm_sample 3 sample i
  = f32_div (float32_of_int (le_signed 24 [b0; b1; b2])) (float32_of_int (2 ^ 23)).
Proof.
  intros H0 H1 H2. unfold pcm_sample.
  rewrite (group_lookup3 sample i b0 b1 b2); [done| | |];
    [by rewrite Nat.mul_comm | by rewrite (Nat.mul_comm i 3) ..].
Qed.

Lemma le_signed_pow2_range (w : nat) (bs : list byte) :
  length bs = w -> (0 < w)%nat ->
  - 2 ^ (8 * Z.of_nat w - 1) <= le_signed (8 * Z.of_nat w) bs < 2 ^ (8 * Z.of_nat w - 1).
Proof.
  intros Hlen Hw. apply le_signed_range; [by rewrite Hlen | lia].
Qed.

Example decode16_min :
  ConvertToFloat32 [x00; x80] 16 = Some ([[f32_minus_one]], None).
Proof. reflexivity. Qed.

Example decode16_max :
  ConvertToFloat32 [xff; x7f] 16 = Some ([[S754_finite false 16776704 (-24)]], None).
Proof. reflexivity. Qed.

Example decode24_min :
  ConvertToFloat32 [x00; x00; x80] 24 = Some ([[f32_minus_one]], None).
Proof. reflexivity. Qed.

Example decode24_max :
  ConvertToFloat32 [xff; xff; x7f] 24 = Some ([[S754_finite false 16777214 (-24)]], None).
Proof. reflexivity. Qed.

Example decode32_max :
  ConvertToFloat32 [xff; xff; xff; x7f] 32 = Some ([[f32_one]], None).
Proof. reflexivity. Qed.

(** C3. At depth 16 the [i]-th decoded sample is the signed 16-bit
    integer made of byte [2i] (low) and byte [2i+1] (high), divided by
    32768.0, and the division is exact.  Bytes 00 80 decode to -1.0 and
    bytes FF 7F to 32767/32768, about 0.999969. *)
Theorem convert16_sample (sample : list byte) (i : nat) (b0 b1 : byte) :
  sample !! (2 * i)%nat = Some b0 -> sample !! (2 * i + 1)%nat = Some b1 ->
  let s := signed 16 (byte_val b0 + 256 * byte_val b1) in
  (exists ch x,
     ConvertToFloat32 sample 16 = Some ([ch], None)
     /\ ch !! i = Some x
     /\ x = f32_div (float32_of_int s) (float32_of_int 32768)
     /\ (f32_to_Q x == s # 32768)%Q)
  /\ ConvertToFloat32 [x00; x80] 16 = Some ([[f32_minus_one]], None)
  /\ (exists y,
        ConvertToFloat32 [xff; x7f] 16 = Some ([[y]], None)
        /\ (f32_to_Q y == 32767 # 32768)%Q
        /\ (999969 # 1000000 <= f32_to_Q y)%Q
        /\ (f32_to_Q y <= 999970 # 1000000)%Q).
Proof.
  intros H0 H1 s. split; [|split].
  - exists (pcm_decode 2 sample), (pcm_sample 2 sample i).
    split; [by apply (ConvertToFloat32_supported sample 16); left|].
    split; [apply pcm_decode_lookup; by apply (lookup_index_lt sample 2 i 1 b1)|].
    rewrite (pcm_sample16 sample i b0 b1 H0 H1).
    assert (Hs : le_signed 16 [b0; b1] = s).
    { unfold le_signed, s. cbn [le_unsigned]. f_equal. lia. }
    rewrite Hs. split; [done|].
    pose proof (le_signed_pow2_range 2 [b0; b1] eq_refl ltac:(lia)) as Hr.
    change (8 * Z.of_nat 2 - 1) with 15 in Hr. change (8 * Z.of_nat 2) with 16 in Hr.
    rewrite Hs in Hr.
    apply (sample_value 15 s 32768); [by left|done|lia|].
    change (2 ^ 15) with 32768 in Hr. change (2 ^ 24) with 16777216. lia.
  - exact decode16_min.
  - exists (S754_finite false 16776704 (-24)). split; [exact decode16_max|].
    split; [reflexivity|]. split; discriminate.
Qed.

(** C2. At depth 24 the [i]-th decoded sample is made of bytes [3i],
    [3i+1], [3i+2], low byte first, as an unsigned 24-bit value that is
    sign-extended to 32 bits exactly when its bit 23 is set, and divided by
    8388608.0; the division is exact.  Bytes 00 00 80 decode to -1.0 and
    bytes FF FF 7F to 8388607/8388608, about 0.999999. *)
Theorem convert24_sample (sample : list byte) (i : nat) (b0 b1 b2 : byte) :
  sample !! (3 * i)%nat = Some b0 -> sample !! (3 * i + 1)%nat = Some b1 ->
  sample !! (3 * i + 2)%nat = Some b2 ->
  let u := byte_val b0 + 256 * byte_val b1 + 65536 * byte_val b2 in
  let s := sign_extend24 u in
  (exists ch x,
     ConvertToFloat32 sample 24 = Some ([ch], None)
     /\ ch !! i = Some x
     /\ x = f32_div (float32_of_int s) (float32_of_int 8388608)
     /\ s = (if Z.testbit u 23 then u - 2 ^ 24 else u)
     /\ (f32_to_Q x == s # 8388608)%Q)
  /\ ConvertToFloat32 [x00; x00; x80] 24 = Some ([[f32_minus_one]], None)
  /\ (exists y,
        ConvertToFloat32 [xff; xff; x7f] 24 = Some ([[y]], None)
        /\ (f32_to_Q y == 8388607 # 8388608)%Q
        /\ (999999 # 1000000 <= f32_to_Q y)%Q
        /\ (f32_to_Q y <= 1)%Q).
Proof.
  intros H0 H1 H2 u s. split; [|split].
  - exists (pcm_decode 3 sample), (pcm_sample 3 sample i).
    split; [by apply (ConvertToFloat32_supported sample 24); right; left|].
    split; [apply pcm_decode_lookup; by apply (lookup_index_lt sample 3 i 2 b2)|].
    rewrite (pcm_sample24 sample i b0 b1 b2 H0 H1 H2).
    assert (Hu : le_unsigned [b0; b1; b2] = u) by (unfold u; cbn [le_unsigned]; lia).
    pose proof (le_unsigned_range [b0; b1; b2]) as Hur.
    change (8 * Z.of_nat (length [b0; b1; b2])) with 24 in Hur. rewrite Hu in Hur.
    assert (Hs : le_signed 24 [b0; b1; b2] = s).
    { unfold le_signed, s. rewrite Hu. symmetry. by apply sign_extend24_signed. }
    pose proof (le_signed_pow2_range 3 [b0; b1; b2] eq_refl ltac:(lia)) as Hr.
    change (8 * Z.of_nat 3 - 1) with 23 in Hr. change (8 * Z.of_nat 3) with 24 in Hr.
    rewrite Hs in *. split; [done|]. split.
    + unfold s. rewrite sign_extend24_signed by done. unfold signed.
      rewrite (testbit_top u 23) by (done || lia).
      change (2 ^ (24 - 1)) with (2 ^ 23).
      destruct (Z.ltb_spec u (2 ^ 23)), (Z.leb_spec (2 ^ 23) u); lia || done.
    + apply (sample_value 23 s 8388608); [right; by left|done|lia|].
      change (2 ^ 23) with 8388608 in Hr. change (2 ^ 24) with 16777216. lia.
  - exact decode24_min.
  - exists (S754_finite false 16777214 (-24)). split; [exact decode24_max|].
    split; [reflexivity|]. split; discriminate.
Qed.

Lemma convert16_sample_witness :
  [x34; x12; xff; x7f] !! (2 * 1)%nat = Some xff
  /\ [x34; x12; xff; x7f] !! (2 * 1 + 1)%nat = Some x7f
  /\ exists ch x,
       ConvertToFloat32 [x34; x12; xff; x7f] 16 = Some ([ch], None)
       /\ ch !! 1%nat = Some x
       /\ x = f32_div (float32_of_int 32767) (float32_of_int 32768)
       /\ (f32_to_Q x == 32767 # 32768)%Q.
Proof.
  split; [reflexivity|]. split; [reflexivity|].
  exact (proj1 (convert16_sample [x34; x12; xff; x7f] 1 xff x7f eq_refl eq_refl)).
Defined.

Lemma convert24_sample_witness :
  [x56; x34; x12; x00; x00; x80] !! (3 * 1)%nat = Some x00
  /\ [x56; x34; x12; x00; x00; x80] !! (3 * 1 + 1)%nat = Some x00
  /\ [x56; x34; x12; x00; x00; x80] !! (3 * 1 + 2)%nat = Some x80
  /\ exists ch x,
       ConvertToFloat32 [x56; x34; x12; x00; x00; x80] 24 = Some ([ch], None)
       /\ ch !! 1%nat = Some x
       /\ x = f32_div (float32_of_int (sign_extend24 8388608)) (float32_of_int 8388608)
       /\ sign_extend24 8388608 = 8388608 - 2 ^ 24
       /\ (f32_to_Q x == -8388608 # 8388608)%Q.
Proof.
  split; [reflexivity|]. split; [reflexivity|]. split; [reflexivity|].
  exact (proj1 (convert24_sample [x56; x34; x12; x00; x00; x80] 1 x00 x00 x80
                  eq_refl eq_refl eq_refl)).
Defined.

(** ** The range of the samples *)

Lemma pcm_sample_range (w : nat) (sample : list byte) (i : nat) :
  w = 2%nat \/ w = 3%nat \/ w = 4%nat -> (i < length sample / w)%nat ->
  f32_leb f32_minus_one (pcm_sample w sample i) = true
  /\ f32_leb (pcm_sample w sample i) f32_one = true
  /\ (w <> 4%nat -> f32_ltb (pcm_sample w sample i) f32_one = true).
Proof.
  intros Hw Hi.
  pose proof (group_length w sample i Hi) as Hlen.
  pose proof (le_signed_pow2_range w (group w sample i) Hlen ltac:(lia)) as Hr.
  unfold pcm_sample.
  set (z := le_signed (8 * Z.of_nat w) (group w sample i)) in *.
  assert (Hj : 8 * Z.of_nat w - 1 = 15 \/ 8 * Z.of_nat w - 1 = 23
               \/ 8 * Z.of_nat w - 1 = 31) by lia.
  set (j := 8 * Z.of_nat w - 1) in *.
  destruct (sample_unit_range j z Hj ltac:(lia)) as [Hlo Hhi].
  split; [done|]. split; [done|].
  intros H4. apply sample_lt_one; lia.
Qed.

(** C8, as the code has it. For the supported depths every decoded
    sample lies between -1.0 and +1.0, both included; at depths 16 and 24
    it is strictly below +1.0. *)
Theorem ConvertToFloat32_range (sample : list byte) (d : Z)
    (ch : list float32) (x : float32) :
  d = 16 \/ d = 24 \/ d = 32 ->
  ConvertToFloat32 sample d = Some ([ch], None) ->
  x ∈ ch ->
  f32_leb f32_minus_one x = true
  /\ f32_leb x f32_one = true
  /\ (d <> 32 -> f32_ltb x f32_one = true).
Proof.
  intros Hd Hconv Hx.
  rewrite ConvertToFloat32_supported in Hconv by done.
  injection Hconv as <-.
  unfold pcm_decode in Hx. apply list_elem_of_fmap in Hx as (i & -> & Hi).
  apply elem_of_seq in Hi.
  destruct (pcm_sample_range (Z.to_nat (d / 8)) sample i) as (Hlo & Hhi & Hlt).
  - destruct Hd as [->|[->| ->]]; [by left | right; by left | right; by right].
  - lia.
  - split; [done|]. split; [done|]. intros Hne. apply Hlt.
    destruct Hd as [->|[->| ->]]; [by compute | by compute | done].
Qed.

(** C8 as stated fails at depth 32: the largest 32-bit sample decodes to
    exactly +1.0, which is not strictly below +1.0. *)
Lemma ConvertToFloat32_range_upper_bound_reached :
  ConvertToFloat32 [xff; xff; xff; x7f] 32 = Some ([[f32_one]], None)
  /\ f32_ltb f32_one f32_one = false.
Proof. split; reflexivity. Qed.

Lemma ConvertToFloat32_range_witness :
  ConvertToFloat32 [xff; xff; xff; x7f] 32 = Some ([[f32_one]], None)
  /\ f32_one ∈ [f32_one]
  /\ f32_leb f32_minus_one f32_one = true
  /\ f32_leb f32_one f32_one = true
  /\ (32 <> 32 -> f32_ltb f32_one f32_one = true).
Proof.
  split; [reflexivity|]. split; [by left|].
  apply (ConvertToFloat32_range [xff; xff; xff; x7f] 32 [f32_one] f32_one).
  - right. right. reflexivity.
  - reflexivity.
  - by left.
Defined.

(** ** ProcessData *)

Section ProcessDataProps.

Context {Detections : Type}.
Variable BitDepth : Z.
Variable ConvertTime : list byte -> Z -> Duration.

Implicit Types (bn : BirdNET Detections) (w : World Detections).
Implicit Types (data : list byte) (source : string).

(** A successful call comes down to the non-blocking send of its message. *)
Lemma ProcessData_success bn data startTime source w samples results :
  ConvertToFloat32 data BitDepth = Some (samples, None) ->
  Predict bn samples = (results, None) ->
  ProcessData BitDepth ConvertTime bn data startTime source w
  = bind (select_send (message BitDepth ConvertTime bn data startTime source samples results)
              (ret tt) (log_Println "Queue is full!"))
           (fun _ => ret None)
           (after_predict BitDepth ConvertTime bn data samples w).
Proof.
  intros Hconv Hpred.
  unfold ProcessData, logProcessingTime.
  unfold mbind, M_bind, bind, time_Now, call_ConvertToFloat32,
    call_Predict, time_Since, mret, M_ret, ret.
  rewrite Hconv. cbn. rewrite Hpred. cbn.
  unfold after_predict, message.
  replace (clock w + ConvertTime data BitDepth + PredictTime bn samples - clock w)
    with (ConvertTime data BitDepth + PredictTime bn samples) by lia.
  reflexivity.
Qed.

Lemma send_full (msg : queue_Results Detections) w :
  (chan_cap (ResultsQueue w) <= length (chan_buf (ResultsQueue w)))%nat ->
  bind (select_send msg (ret tt) (log_Println "Queue is full!"))
         (fun _ => ret (@None error)) w
  = Some (None, {| clock := clock w; ResultsQueue := ResultsQueue w;
                   logged := logged w ++ ["Queue is full!"];
                   predicted := predicted w |}).
Proof.
  intros Hfull. unfold bind, select_send.
  destruct (decide _) as [Hroom|_]; [lia|]. reflexivity.
Qed.

Lemma send_room (msg : queue_Results Detections) w :
  (length (chan_buf (ResultsQueue w)) < chan_cap (ResultsQueue w))%nat ->
  bind (select_send msg (ret tt) (log_Println "Queue is full!"))
         (fun _ => ret (@None error)) w
  = Some (None, {| clock := clock w;
                   ResultsQueue :=
                     {| chan_cap := chan_cap (ResultsQueue w);
                        chan_buf := chan_buf (ResultsQueue w) ++ [msg] |};
                   logged := logged w;
                   predicted := predicted w |}).
Proof.
  intros Hroom. unfold bind, select_send.
  destruct (decide _) as [_|Hfull]; [|lia]. reflexivity.
Qed.

(** C1. When decoding and inference succeed, [ProcessData] returns a
    [nil] error without waiting: on a full queue the message is dropped,
    the queue is unchanged and exactly one line, "Queue is full!", is
    logged; with room the message is appended and nothing is logged. *)
Theorem ProcessData_dispatch bn data startTime source w samples results :
  ConvertToFloat32 data BitDepth = Some (samples, None) ->
  Predict bn samples = (results, None) ->
  exists msg w',
    ProcessData BitDepth ConvertTime bn data startTime source w = Some (None, w')
    /\ Results msg = results
    /\ chan_cap (ResultsQueue w') = chan_cap (ResultsQueue w)
    /\ ((chan_cap (ResultsQueue w) <= length (chan_buf (ResultsQueue w)))%nat ->
        chan_buf (ResultsQueue w') = chan_buf (ResultsQueue w)
        /\ logged w' = logged w ++ ["Queue is full!"])
    /\ ((length (chan_buf (ResultsQueue w)) < chan_cap (ResultsQueue w))%nat ->
        chan_buf (ResultsQueue w') = chan_buf (ResultsQueue w) ++ [msg]
        /\ logged w' = logged w).
Proof.
  intros Hconv Hpred.
  rewrite (ProcessData_success _ _ _ _ _ _ _ Hconv Hpred).
  exists (message BitDepth ConvertTime bn data startTime source samples results).
  destruct (Nat.lt_ge_cases (length (chan_buf (ResultsQueue w)))
              (chan_cap (ResultsQueue w))) as [Hroom|Hfull].
  - rewrite send_room by done. eexists. split; [reflexivity|].
    cbn. repeat split; (done || lia).
  - rewrite send_full by done. eexists. split; [reflexivity|].
    cbn. repeat split; (done || lia).
Qed.

(** C9. In a successful call the message handed to the queue holds the
    very bytes that were passed in, not the decoded samples, with the
    caller's start time and source. *)
Theorem ProcessData_message bn data startTime source w samples results :
  ConvertToFloat32 data BitDepth = Some (samples, None) ->
  Predict bn samples = (results, None) ->
  exists msg w1,
    PCMdata msg = data /\ StartTime msg = startTime /\ Source msg = source
    /\ ResultsQueue w1 = ResultsQueue w
    /\ ProcessData BitDepth ConvertTime bn data startTime source w
       = bind (select_send msg (ret tt) (log_Println "Queue is full!"))
                (fun _ => ret None) w1
    /\ ((length (chan_buf (ResultsQueue w)) < chan_cap (ResultsQueue w))%nat ->
        exists w',
          ProcessData BitDepth ConvertTime bn data startTime source w
          = Some (None, w')
          /\ chan_buf (ResultsQueue w') = chan_buf (ResultsQueue w) ++ [msg]).
Proof.
  intros Hconv Hpred.
  exists (message BitDepth ConvertTime bn data startTime source samples results),
         (after_predict BitDepth ConvertTime bn data samples w).
  rewrite (ProcessData_success _ _ _ _ _ _ _ Hconv Hpred).
  repeat (split; [reflexivity|]).
  intros Hroom. rewrite send_room by done. eexists. split; reflexivity.
Qed.

(** C7, as the code has it. In a successful call the elapsed time of
    the message runs from a clock reading taken on entry, before decoding,
    to a reading taken right after [Predict] returns, before the send: it
    is the time of decoding plus the time of inference. *)
Theorem ProcessData_elapsed bn data startTime source w samples results :
  ConvertToFloat32 data BitDepth = Some (samples, None) ->
  Predict bn samples = (results, None) ->
  exists msg w1,
    ProcessData BitDepth ConvertTime bn data startTime source w
    = bind (select_send msg (ret tt) (log_Println "Queue is full!"))
           (fun _ => ret None) w1
    /\ ElapsedTime msg = clock w1 - clock w
    /\ ElapsedTime msg = ConvertTime data BitDepth + PredictTime bn samples
    /\ ((length (chan_buf (ResultsQueue w)) < chan_cap (ResultsQueue w))%nat ->
        exists w',
          ProcessData BitDepth ConvertTime bn data startTime source w
          = Some (None, w')
          /\ chan_buf (ResultsQueue w') = chan_buf (ResultsQueue w) ++ [msg]).
Proof.
  intros Hconv Hpred.
  exists (message BitDepth ConvertTime bn data startTime source samples results),
         (after_predict BitDepth ConvertTime bn data samples w).
  rewrite (ProcessData_success _ _ _ _ _ _ _ Hconv Hpred).
  split; [reflexivity|].
  split; [unfold message, after_predict; cbn [ElapsedTime clock]; lia|].
  split; [reflexivity|].
  intros Hroom. rewrite send_room by done. eexists. split; reflexivity.
Qed.

(** C5. When decoding succeeds and [Predict] reports an error, the call
    returns an error that wraps it; the queue and the log are untouched. *)
Theorem ProcessData_inference_error bn data startTime source w samples results
    (cause : error) :
  ConvertToFloat32 data BitDepth = Some (samples, None) ->
  Predict bn samples = (results, Some cause) ->
  exists err w',
    ProcessData BitDepth ConvertTime bn data startTime source w = Some (Some err, w')
    /\ err = Errorf_w "error predicting species: " cause
    /\ Unwrap err = Some cause
    /\ ResultsQueue w' = ResultsQueue w
    /\ logged w' = logged w.
Proof.
  intros Hconv Hpred.
  unfold ProcessData, mbind, M_bind, bind, time_Now, call_ConvertToFloat32,
    call_Predict, mret, M_ret, ret.
  rewrite Hconv. cbn. rewrite Hpred. cbn.
  eexists _, _. repeat split; reflexivity.
Qed.

(** C6. For a depth other than 16, 24 and 32, [ConvertToFloat32]
    returns the error "unsupported audio bit depth" and no samples, and
    [ProcessData] returns an error wrapping it, without calling [Predict]
    and without touching the queue or the log. *)
Theorem ProcessData_unsupported_depth bn data startTime source w :
  BitDepth <> 16 -> BitDepth <> 24 -> BitDepth <> 32 ->
  ConvertToFloat32 data BitDepth
  = Some ([], Some (errorString "unsupported audio bit depth"))
  /\ exists err w',
       ProcessData BitDepth ConvertTime bn data startTime source w
       = Some (Some err, w')
       /\ Unwrap err = Some (errorString "unsupported audio bit depth")
       /\ predicted w' = predicted w
       /\ ResultsQueue w' = ResultsQueue w
       /\ logged w' = logged w.
Proof.
  intros H16 H24 H32.
  assert (Hconv : ConvertToFloat32 data BitDepth
                  = Some ([], Some (errorString "unsupported audio bit depth"))).
  { unfold ConvertToFloat32.
    destruct (Z.eqb_spec BitDepth 16); [done|].
    destruct (Z.eqb_spec BitDepth 24); [done|].
    destruct (Z.eqb_spec BitDepth 32); [done|]. reflexivity. }
  split; [done|].
  unfold ProcessData, mbind, M_bind, bind, time_Now, call_ConvertToFloat32,
    mret, M_ret, ret.
  rewrite Hconv. cbn.
  eexists _, _. repeat split; reflexivity.
Qed.

End ProcessDataProps.

(** ** The statements on a concrete run *)

(** A queue without room: the message is shed and one line is logged. *)
Lemma ProcessData_dispatch_witness :
  ConvertToFloat32 [x00; x80] 16 = Some ([[f32_minus_one]], None)
  /\ Predict bn_ok [[f32_minus_one]] = ([("Turdus merula", 9)], None)
  /\ exists w',
       ProcessData 16 convert_5ns bn_ok [x00; x80] 42 "mic" (world0 0)
       = Some (None, w')
       /\ chan_buf (ResultsQueue w') = []
       /\ logged w' = ["Queue is full!"].
Proof.
  split; [reflexivity|]. split; [reflexivity|].
  destruct (ProcessData_dispatch 16 convert_5ns bn_ok [x00; x80] 42 "mic" (world0 0)
              [[f32_minus_one]] [("Turdus merula", 9)] eq_refl eq_refl)
    as (msg & w' & Hrun & _ & _ & Hfull & _).
  exists w'. split; [exact Hrun|].
  apply Hfull. cbn. lia.
Defined.

Lemma ProcessData_message_witness :
  ConvertToFloat32 [x00; x80] 16 = Some ([[f32_minus_one]], None)
  /\ Predict bn_ok [[f32_minus_one]] = ([("Turdus merula", 9)], None)
  /\ exists msg w',
       PCMdata msg = [x00; x80] /\ StartTime msg = 42 /\ Source msg = "mic"
       /\ ProcessData 16 convert_5ns bn_ok [x00; x80] 42 "mic" (world0 1)
          = Some (None, w')
       /\ chan_buf (ResultsQueue w') = [msg].
Proof.
  split; [reflexivity|]. split; [reflexivity|].
  destruct (ProcessData_message 16 convert_5ns bn_ok [x00; x80] 42 "mic" (world0 1)
              [[f32_minus_one]] [("Turdus merula", 9)] eq_refl eq_refl)
    as (msg & w1 & Hpcm & Hstart & Hsrc & _ & _ & Hroom).
  destruct Hroom as (w' & Hrun & Hbuf); [cbn; lia|].
  exists msg, w'. repeat (split; [assumption|]). exact Hbuf.
Defined.

Lemma ProcessData_elapsed_witness :
  ConvertToFloat32 [x00; x80] 16 = Some ([[f32_minus_one]], None)
  /\ Predict bn_ok [[f32_minus_one]] = ([("Turdus merula", 9)], None)
  /\ exists msg w',
       ProcessData 16 convert_5ns bn_ok [x00; x80] 42 "mic" (world0 1)
       = Some (None, w')
       /\ chan_buf (ResultsQueue w') = [msg]
       /\ ElapsedTime msg = 5 + 7.
Proof.
  split; [reflexivity|]. split; [reflexivity|].
  destruct (ProcessData_elapsed 16 convert_5ns bn_ok [x00; x80] 42 "mic" (world0 1)
              [[f32_minus_one]] [("Turdus merula", 9)] eq_refl eq_refl)
    as (msg & w1 & _ & _ & Hel & Hroom).
  destruct Hroom as (w' & Hrun & Hbuf); [cbn; lia|].
  exists msg, w'. split; [exact Hrun|]. split; [exact Hbuf | exact Hel].
Defined.

(** C7 as stated fails: with a decoding that takes 5 ns and an inference
    that takes 7 ns, the elapsed time of the message is 12 ns, not the 7 ns
    of the inference call. *)
Lemma ProcessData_elapsed_includes_decoding :
  exists msg w',
    ProcessData 16 convert_5ns bn_ok [x00; x80] 42 "mic" (world0 1) = Some (None, w')
    /\ chan_buf (ResultsQueue w') = [msg]
    /\ PredictTime bn_ok [[f32_minus_one]] = 7
    /\ ElapsedTime msg = 12
    /\ ElapsedTime msg <> PredictTime bn_ok [[f32_minus_one]].
Proof.
  set (msg := {| StartTime := 42; ElapsedTime := 12; PCMdata := [x00; x80];
                 Results := [("Turdus merula", 9)]; Source := "mic" |}
              : queue_Results (list (string * Z))).
  exists msg,
    {| clock := 112;
       ResultsQueue := {| chan_cap := 1; chan_buf := [msg] |};
       logged := [];
       predicted := [[[f32_minus_one]]] |}.
  split; [vm_compute; reflexivity|].
  split; [reflexivity|]. split; [reflexivity|]. split; [reflexivity|].
  cbn. discriminate.
Qed.

Lemma ProcessData_inference_error_witness :
  ConvertToFloat32 [x00; x80] 16 = Some ([[f32_minus_one]], None)
  /\ Predict bn_fail [[f32_minus_one]]
     = ([], Some (errorString "interpreter invoke failed"))
  /\ exists err w',
       ProcessData 16 convert_5ns bn_fail [x00; x80] 42 "mic" (world0 1)
       = Some (Some err, w')
       /\ Error err = "error predicting species: interpreter invoke failed"
       /\ Unwrap err = Some (errorString "interpreter invoke failed")
       /\ chan_buf (ResultsQueue w') = []
       /\ logged w' = [].
Proof.
  split; [reflexivity|]. split; [reflexivity|].
  destruct (ProcessData_inference_error 16 convert_5ns bn_fail [x00; x80] 42 "mic"
              (world0 1) [[f32_minus_one]] [] (errorString "interpreter invoke failed")
              eq_refl eq_refl)
    as (err & w' & Hrun & Herr & Hun & Hq & Hlog).
  exists err, w'. split; [exact Hrun|]. split; [by rewrite Herr|].
  split; [exact Hun|]. split; [by rewrite Hq | exact Hlog].
Defined.

Lemma ProcessData_unsupported_depth_witness :
  8 <> 16 /\ 8 <> 24 /\ 8 <> 32
  /\ ConvertToFloat32 [x00; x80] 8
     = Some ([], Some (errorString "unsupported audio bit depth"))
  /\ exists err w',
       ProcessData 8 convert_5ns bn_ok [x00; x80] 42 "mic" (world0 1)
       = Some (Some err, w')
       /\ Unwrap err = Some (errorString "unsupported audio bit depth")
       /\ predicted w' = []
       /\ chan_buf (ResultsQueue w') = []
       /\ logged w' = [].
Proof.
  assert (H16 : 8 <> 16) by lia. assert (H24 : 8 <> 24) by lia.
  assert (H32 : 8 <> 32) by lia.
  split; [exact H16|]. split; [exact H24|]. split; [exact H32|].
  destruct (ProcessData_unsupported_depth 8 convert_5ns bn_ok [x00; x80] 42 "mic"
              (world0 1) H16 H24 H32)
    as (Hconv & err & w' & Hrun & Hun & Hpred & Hq & Hlog).
  split; [exact Hconv|].
  exists err, w'. split; [exact Hrun|]. split; [exact Hun|].
  split; [exact Hpred|]. split; [by rewrite Hq | exact Hlog].
Defined.

(** * Further properties *)

(** ** Round to nearest, ties to even *)

Lemma iter_pos_nat {A} (f : A -> A) (n : positive) :
  forall x, SpecFloat.iter_pos f n x = Nat.iter (Pos.to_nat n) f x.
Proof.
  induction n as [n IH|n IH|]; intros x; cbn [SpecFloat.iter_pos].
  - rewrite !IH, Pos2Nat.inj_xI.
    replace (S (2 * Pos.to_nat n))%nat with (Pos.to_nat n + (Pos.to_nat n + 1))%nat by lia.
    rewrite !Nat.iter_add. done.
  - rewrite !IH, Pos2Nat.inj_xO.
    replace (2 * Pos.to_nat n)%nat with (Pos.to_nat n + Pos.to_nat n)%nat by lia.
    rewrite Nat.iter_add. done.
  - done.
Qed.

Lemma shr_1_spec (m : Z) (r s : bool) :
  0 <= m ->
  shr_1 {| shr_m := m; shr_r := r; shr_s := s |}
  = {| shr_m := m / 2; shr_r := Z.odd m; shr_s := r || s |}.
Proof.
  intros Hm. rewrite <- Z.div2_div.
  destruct m as [|[q|q|]|q]; cbn [shr_1]; try reflexivity; lia.
Qed.

(** After [k+1] one-bit shifts of [p]: the quotient, the last bit shifted
    out, and whether anything below it was non-zero. *)
Lemma shr_iter (p : Z) (k : nat) :
  0 <= p ->
  Nat.iter (S k) shr_1 {| shr_m := p; shr_r := false; shr_s := false |}
  = {| shr_m := p / 2 ^ (Z.of_nat k + 1);
       shr_r := Z.testbit p (Z.of_nat k);
       shr_s := negb (p mod 2 ^ Z.of_nat k =? 0) |}.
Proof.
  intros Hp. induction k as [|k IH].
  - cbn [Nat.iter]. rewrite shr_1_spec by done.
    cbn [Z.of_nat]. rewrite Z.bit0_odd, Z.mod_1_r. done.
  - rewrite Nat.iter_succ, IH.
    assert (Hpk : 0 < 2 ^ Z.of_nat k) by (apply Z.pow_pos_nonneg; lia).
    assert (Hpk1 : 0 < 2 ^ (Z.of_nat k + 1)) by (apply Z.pow_pos_nonneg; lia).
    rewrite shr_1_spec by (apply Z.div_pos; lia).
    replace (Z.of_nat (S k)) with (Z.of_nat k + 1) by lia.
    f_equal.
    + rewrite Z.div_div by lia. rewrite (Z.pow_add_r 2 (Z.of_nat k + 1) 1) by lia. done.
    + rewrite (Z.testbit_odd p (Z.of_nat k + 1)), Z.shiftr_div_pow2 by lia. done.
    + rewrite (Z.pow_add_r 2 (Z.of_nat k) 1), Z.pow_1_r by lia.
      rewrite Z.rem_mul_r by lia.
      rewrite Z.testbit_odd, Z.shiftr_div_pow2 by lia.
      pose proof (Z.mod_pos_bound p (2 ^ Z.of_nat k) Hpk) as Hb.
      rewrite Zmod_odd.
      destruct (Z.odd (p / 2 ^ Z.of_nat k));
        destruct (Z.eqb_spec (p mod 2 ^ Z.of_nat k) 0) as [H0|H0];
        match goal with |- context [?a =? 0] =>
          destruct (Z.eqb_spec a 0) as [H2|H2] end;
        cbn; try reflexivity; nia.
Qed.

(** The integer mantissa chosen when the low [n] bits of [p] are dropped. *)
Lemma round_shifted (p : Z) (n : positive) :
  0 <= p ->
  round_nearest_even
    (shr_m (SpecFloat.iter_pos shr_1 n
              {| shr_m := p; shr_r := false; shr_s := false |}))
    (loc_of_shr_record
       (SpecFloat.iter_pos shr_1 n
          {| shr_m := p; shr_r := false; shr_s := false |}))
  = round_half_even p (Z.pos n).
Proof.
  intros Hp. rewrite iter_pos_nat.
  destruct (Pos2Nat.is_succ n) as [k Hk]. rewrite Hk, shr_iter by done.
  assert (Hn : Z.pos n = Z.of_nat k + 1) by lia.
  unfold round_half_even. rewrite Hn.
  replace (Z.of_nat k + 1 - 1) with (Z.of_nat k) by lia.
  cbn [shr_m loc_of_shr_record].
  assert (Hpk : 0 < 2 ^ Z.of_nat k) by (apply Z.pow_pos_nonneg; lia).
  rewrite (Z.pow_add_r 2 (Z.of_nat k) 1), Z.pow_1_r by lia.
  rewrite Z.rem_mul_r by lia.
  rewrite Z.testbit_odd, Z.shiftr_div_pow2 by lia. rewrite Zmod_odd.
  pose proof (Z.mod_pos_bound p (2 ^ Z.of_nat k) Hpk) as Hb.
  set (lo := p mod 2 ^ Z.of_nat k) in *.
  set (h := 2 ^ Z.of_nat k) in *.
  destruct (Z.odd (p / h)); destruct (Z.eqb_spec lo 0) as [H0|H0];
    cbn [negb round_nearest_even loc_of_shr_record];
    match goal with |- context [?a <? h] => destruct (Z.ltb_spec a h) end; try nia;
    match goal with |- context [h <? ?a] => destruct (Z.ltb_spec h a) end; try nia;
    reflexivity.
Qed.

Lemma round_half_even_range (p n : Z) :
  0 < n ->
  p / 2 ^ n <= round_half_even p n <= p / 2 ^ n + 1
  /\ 2 * Z.abs (round_half_even p n * 2 ^ n - p) <= 2 ^ n.
Proof.
  intros Hn. unfold round_half_even.
  assert (Hpn : 0 < 2 ^ (n - 1)) by (apply Z.pow_pos_nonneg; lia).
  assert (H2 : 2 ^ n = 2 * 2 ^ (n - 1)).
  { replace n with (1 + (n - 1)) at 1 by lia. by rewrite Z.pow_add_r by lia. }
  pose proof (Z.div_mod p (2 ^ n) ltac:(lia)) as Hdm.
  pose proof (Z.mod_pos_bound p (2 ^ n) ltac:(lia)) as Hb.
  set (q := p / 2 ^ n) in *. set (r := p mod 2 ^ n) in *.
  set (h := 2 ^ (n - 1)) in *.
  destruct (Z.ltb_spec r h); [split; lia|].
  destruct (Z.ltb_spec h r); [split; lia|].
  destruct (Z.even q); split; lia.
Qed.

(** The conversion of an integer of 25 to 32 binary digits, in full. *)
Lemma binary_round_large_val (s : bool) (p : positive) :
  24 < Z.pos (digits2_pos p) <= 32 ->
  let n := Z.pos (digits2_pos p) - 24 in
  let m1 := round_half_even (Z.pos p) n in
  2 ^ 23 <= m1 <= 2 ^ 24
  /\ binary_round f32_prec f32_emax s p 0
     = if m1 <? 2 ^ 24 then S754_finite s (Z.to_pos m1) n
       else S754_finite s 8388608 (n + 1).
Proof.
  intros Hd n m1.
  pose proof (digits2_pos_bounds p) as Hp.
  set (d := Z.pos (digits2_pos p)) in *.
  assert (Hn : 0 < n) by (unfold n; lia).
  assert (Hpow : 2 ^ (d - 1) = 2 ^ 23 * 2 ^ n /\ 2 ^ d = 2 ^ 24 * 2 ^ n).
  { unfold n. rewrite <- !Z.pow_add_r by lia. split; f_equal; lia. }
  destruct Hpow as [Hpow1 Hpow2].
  assert (Hpk : 0 < 2 ^ n) by (apply Z.pow_pos_nonneg; lia).
  assert (Hq : 2 ^ 23 <= Z.pos p / 2 ^ n < 2 ^ 24).
  { split; [apply Z.div_le_lower_bound; lia | apply Z.div_lt_upper_bound; lia]. }
  destruct (round_half_even_range (Z.pos p) n Hn) as [Hr _]. fold m1 in Hr.
  split; [lia|].
  unfold binary_round, shl_align, fexp, emin, f32_prec, f32_emax.
  fold d.
  replace (Z.max (d + 0 - 24) (3 - 128 - 24) - 0) with n by (unfold n; lia).
  destruct n as [|k|k] eqn:Hk; [lia| |lia].
  unfold binary_round_aux, shr_fexp, Zdigits2, fexp, emin. fold d.
  replace (Z.max (d + 0 - 24) (3 - 128 - 24) - 0) with (Z.pos k) by lia.
  cbn [shr shr_record_of_loc].
  rewrite (round_shifted (Z.pos p) k) by lia. fold m1.
  destruct m1 as [|q|q] eqn:Hm1; [lia| |lia].
  destruct (Z.ltb_spec (Z.pos q) (2 ^ 24)) as [Hlt|Hge].
  - assert (Hdq : digits2_pos q = 24%positive).
    { assert (Z.pos (digits2_pos q) = 24); [|lia].
      apply digits2_pos_unique. change (24 - 1) with 23. lia. }
    rewrite Hdq.
    replace (Z.max (24 + (0 + Z.pos k) - 24) (3 - 128 - 24) - (0 + Z.pos k)) with 0 by lia.
    cbn [shr shr_record_of_loc shr_m].
    destruct (Z.leb_spec (0 + Z.pos k) (128 - 24)); [|lia].
    cbn [Z.to_pos]. f_equal.
  - assert (q = 16777216%positive) as -> by (change (2 ^ 24) with 16777216 in *; lia).
    change (digits2_pos 16777216) with 25%positive.
    replace (Z.max (25 + (0 + Z.pos k) - 24) (3 - 128 - 24) - (0 + Z.pos k)) with 1 by lia.
    cbn [shr shr_record_of_loc SpecFloat.iter_pos shr_1 shr_m].
    destruct (Z.leb_spec (0 + Z.pos k + 1) (128 - 24)); [|lia].
    f_equal.
Qed.

Lemma digits2_pos_log2 (p : positive) :
  Z.pos (digits2_pos p) = Z.log2 (Z.pos p) + 1.
Proof.
  apply digits2_pos_unique.
  pose proof (Z.log2_spec (Z.pos p) ltac:(lia)) as H.
  replace (Z.log2 (Z.pos p) + 1 - 1) with (Z.log2 (Z.pos p)) by lia.
  replace (Z.log2 (Z.pos p) + 1) with (Z.succ (Z.log2 (Z.pos p))) by lia. done.
Qed.

(** ** The value of a converted integer *)

Lemma f32_to_Q_scaled (s : bool) (m : positive) (e k : Z) :
  0 <= e -> 0 <= k ->
  (f32_to_Q (S754_finite s m (e - k)) * inject_Z (2 ^ k)
   == inject_Z ((if s then -1 else 1) * (Z.pos m * 2 ^ e)))%Q.
Proof.
  intros He Hk. cbn [f32_to_Q].
  rewrite !inject_Z_mult, !Zpower_Qpower by done.
  change (inject_Z 2) with 2%Q.
  replace (e - k) with (e + - k) by lia.
  rewrite Qpower_plus by done.
  assert (Hc : (2 ^ (- k) * 2 ^ k == 1)%Q).
  { rewrite <- Qpower_plus by done. replace (- k + k) with 0 by lia. reflexivity. }
  set (a := (2 ^ e)%Q) in *. set (b := (2 ^ (- k))%Q) in *. set (c := (2 ^ k)%Q) in *.
  transitivity ((if s then -1 else 1) * inject_Z (Z.pos m) * a * (b * c))%Q; [ring|].
  rewrite Hc. destruct s; cbn [inject_Z]; ring.
Qed.

(** The integer sample [z] of magnitude at most [2^j], divided by [2^j],
    is the rational [float32_int_value z / 2^j]. *)
Lemma sample_value_rounded (j z : Z) (n : positive) :
  j = 15 \/ j = 23 \/ j = 31 -> Z.pos n = 2 ^ j ->
  - 2 ^ j <= z <= 2 ^ j ->
  (f32_to_Q (f32_div (float32_of_int z) (float32_of_int (2 ^ j)))
   == float32_int_value z # n)%Q.
Proof.
  intros Hj Hn Hz.
  destruct (Z.eq_dec z 0) as [->|Hz0].
  { rewrite float32_of_pow2 by done. rewrite sample_zero. reflexivity. }
  assert (Hlog : Z.log2 (Z.abs z) + 1 = Z.pos (digits2_pos (Z.to_pos (Z.abs z)))).
  { rewrite digits2_pos_log2. rewrite Z2Pos.id by lia. done. }
  unfold float32_int_value. rewrite Hlog.
  pose proof (digits2_pos_bounds (Z.to_pos (Z.abs z))) as Hdb.
  rewrite Z2Pos.id in Hdb by lia.
  set (d := Z.pos (digits2_pos (Z.to_pos (Z.abs z)))) in *.
  destruct (Z.leb_spec (d - 24) 0) as [Hsmall|Hlarge].
  - apply sample_value; [done|done|done|].
    assert (2 ^ d <= 2 ^ 24) by (apply Z.pow_le_mono_r; lia). lia.
  - assert (Hd32 : d <= 32).
    { assert (d - 1 <= j); [|lia]. apply pow2_le_inv; lia. }
    rewrite float32_of_pow2 by done.
    assert (Hgen : forall s p, Z.pos p = Z.abs z ->
      (f32_to_Q (f32_div (binary_round f32_prec f32_emax s p 0)
                   (S754_finite false 8388608 (j - 23)))
       == (if s then -1 else 1)
          * (round_half_even (Z.abs z) (d - 24) * 2 ^ (d - 24)) # n)%Q).
    { intros s p Hp.
      assert (Hpd : Z.pos (digits2_pos p) = d).
      { unfold d. rewrite <- Hp. done. }
      destruct (binary_round_large_val s p) as [Hm1 Hbr]; [lia|].
      cbv zeta in Hm1, Hbr. rewrite Hpd, Hp in Hm1, Hbr. rewrite Hbr.
      set (m1 := round_half_even (Z.abs z) (d - 24)) in *.
      apply Q_of_mul. rewrite Hn.
      destruct (Z.ltb_spec m1 (2 ^ 24)) as [Hlt|Hge].
      - rewrite f32_div_pow2; [| |lia].
        2:{ assert (Z.pos (digits2_pos (Z.to_pos m1)) = 24); [|lia].
            apply digits2_pos_unique. rewrite Z2Pos.id by lia.
            change (24 - 1) with 23. lia. }
        rewrite f32_to_Q_scaled by lia. rewrite Z2Pos.id by lia. reflexivity.
      - rewrite f32_div_pow2; [|done|lia].
        rewrite f32_to_Q_scaled by lia.
        assert (m1 = 2 ^ 24) as -> by lia.
        rewrite (Z.pow_add_r 2 (d - 24) 1) by lia.
        change (Z.pos 8388608) with (2 ^ 23). change (2 ^ 24) with (2 ^ 23 * 2).
        change (2 ^ 1) with 2.
        apply inject_Z_injective. f_equal. lia. }
    destruct z as [|p|p]; [done| |].
    + unfold float32_of_int, binary_normalize.
      rewrite (Hgen false p) by done. cbn [Z.sgn]. reflexivity.
    + unfold float32_of_int, binary_normalize.
      rewrite (Hgen true p) by done. cbn [Z.sgn]. reflexivity.
Qed.

Lemma float32_int_value_small (z : Z) :
  Z.abs z < 2 ^ 24 -> float32_int_value z = z.
Proof.
  intros Hz. unfold float32_int_value.
  destruct (Z.eq_dec z 0) as [->|Hz0]; [done|].
  assert (Z.log2 (Z.abs z) < 24) by (apply Z.log2_lt_pow2; lia).
  destruct (Z.leb_spec (Z.log2 (Z.abs z) + 1 - 24) 0); [done|lia].
Qed.

(** Rounding moves an integer of magnitude at most [2^31] by at most 64,
    and not at all when its low 8 bits are zero. *)
Lemma float32_int_value_near (z : Z) :
  - 2 ^ 31 <= z <= 2 ^ 31 ->
  Z.abs (float32_int_value z - z) <= 64
  /\ (z mod 256 = 0 -> float32_int_value z = z).
Proof.
  intros Hz.
  destruct (Z.eq_dec (Z.abs z) (2 ^ 31)) as [Hmax|Hmax].
  { assert (z = 2147483648 \/ z = -2147483648) as [-> | ->]
      by (change (2 ^ 31) with 2147483648 in *; lia);
      split; vm_compute; (done || discriminate). }
  unfold float32_int_value.
  destruct (Z.leb_spec (Z.log2 (Z.abs z) + 1 - 24) 0) as [|Hn];
    [split; [lia|done]|].
  set (n := Z.log2 (Z.abs z) + 1 - 24) in *.
  assert (Hz0 : z <> 0) by (intros ->; subst n; vm_compute in Hn; discriminate).
  assert (Hn8 : n <= 7).
  { assert (Z.log2 (Z.abs z) < 31); [|lia]. apply Z.log2_lt_pow2; lia. }
  destruct (round_half_even_range (Z.abs z) n Hn) as [_ Herr].
  assert (Hp8 : 2 ^ n <= 2 ^ 7) by (apply Z.pow_le_mono_r; lia).
  split.
  - change (2 ^ 7) with 128 in Hp8. destruct z; cbn [Z.sgn Z.abs] in *; lia.
  - intros Hmod.
    assert (Hrem : Z.abs z mod 2 ^ n = 0).
    { assert (Habs : Z.abs z mod 256 = 0).
      { destruct (Z.abs_spec z) as [[_ ->]|[_ ->]]; [done|].
        apply Z.mod_divide; [lia|]. apply Z.divide_opp_r.
        apply Z.mod_divide; [lia|done]. }
      apply Z.mod_divide; [apply Z.pow_nonzero; lia|].
      apply Z.mod_divide in Habs; [|lia].
      apply Z.divide_trans with (2 ^ 8); [|done].
      exists (2 ^ (8 - n)). rewrite <- Z.pow_add_r by lia. f_equal. lia. }
    unfold round_half_even. rewrite Hrem.
    assert (0 < 2 ^ (n - 1)) by (apply Z.pow_pos_nonneg; lia).
    destruct (Z.ltb_spec 0 (2 ^ (n - 1))); [|lia].
    pose proof (Z.div_mod (Z.abs z) (2 ^ n) ltac:(lia)) as Hdm.
    rewrite Hrem in Hdm.
    destruct z; cbn [Z.sgn Z.abs] in *; lia.
Qed.

(** ** Depth 32 *)

Lemma pcm_sample32 (sample : list byte) (i : nat) (b0 b1 b2 b3 : byte) :
  sample !! (4 * i)%nat = Some b0 -> sample !! (4 * i + 1)%nat = Some b1 ->
  sample !! (4 * i + 2)%nat = Some b2 -> sample !! (4 * i + 3)%nat = Some b3 ->
  pcm_sample 4 sample i
  = f32_div (float32_of_int (le_signed 32 [b0; b1; b2; b3])) (float32_of_int (2 ^ 31)).
Proof.
  intros H0 H1 H2 H3. unfold pcm_sample.
  rewrite (group_lookup4 sample i b0 b1 b2 b3); [done| | | |];
    [by rewrite Nat.mul_comm | by rewrite (Nat.mul_comm i 4) ..].
Qed.

Lemma byte_val_zero (b : byte) : byte_val b = 0 -> b = x00.
Proof.
  intros H. unfold byte_val in H.
  assert (Hn : Byte.to_N b = 0%N) by lia.
  apply (f_equal Byte.of_N) in Hn. rewrite Byte.of_to_N in Hn.
  by injection Hn.
Qed.

(** X1. At depth 32 the [i]-th decoded sample is the signed 32-bit
    integer [s] made of bytes [4i .. 4i+3], low byte first, converted to
    [float32] and divided by 2147483648.0.  Its value is [R / 2^31] for an
    integer [R] within 64 of [s]; [R] is [s] itself when [s] has at most
    24 binary digits or when the low byte is zero. *)
Theorem convert32_sample (sample : list byte) (i : nat) (b0 b1 b2 b3 : byte) :
  sample !! (4 * i)%nat = Some b0 -> sample !! (4 * i + 1)%nat = Some b1 ->
  sample !! (4 * i + 2)%nat = Some b2 -> sample !! (4 * i + 3)%nat = Some b3 ->
  let s := signed 32 (byte_val b0 + 256 * byte_val b1 + 65536 * byte_val b2
                      + 16777216 * byte_val b3) in
  exists ch x R,
    ConvertToFloat32 sample 32 = Some ([ch], None)
    /\ ch !! i = Some x
    /\ x = f32_div (float32_of_int s) (float32_of_int 2147483648)
    /\ (f32_to_Q x == R # 2147483648)%Q
    /\ Z.abs (R - s) <= 64
    /\ (Z.abs s < 2 ^ 24 -> R = s)
    /\ (b0 = x00 -> R = s).
Proof.
  intros H0 H1 H2 H3 s.
  exists (pcm_decode 4 sample), (pcm_sample 4 sample i), (float32_int_value s).
  split; [by apply (ConvertToFloat32_supported sample 32); right; right|].
  split; [apply pcm_decode_lookup; by apply (lookup_index_lt sample 4 i 3 b3)|].
  rewrite (pcm_sample32 sample i b0 b1 b2 b3 H0 H1 H2 H3).
  assert (Hs : le_signed 32 [b0; b1; b2; b3] = s).
  { unfold le_signed, s. cbn [le_unsigned]. f_equal. lia. }
  pose proof (le_signed_pow2_range 4 [b0; b1; b2; b3] eq_refl ltac:(lia)) as Hr.
  change (8 * Z.of_nat 4 - 1) with 31 in Hr. change (8 * Z.of_nat 4) with 32 in Hr.
  rewrite Hs in *.
  destruct (float32_int_value_near s ltac:(lia)) as [Hnear Hlow].
  split; [done|].
  split; [apply (sample_value_rounded 31 s 2147483648); [by right; right|done|lia]|].
  split; [done|]. split; [apply float32_int_value_small|].
  intros ->. apply Hlow. unfold s, signed.
  change (byte_val x00) with 0.
  destruct (_ <? _); change (2 ^ 32) with (256 * 16777216);
    Z.div_mod_to_equations; lia.
Qed.

Lemma convert32_sample_witness :
  [x01; x02; x03; x04; x00; x00; x00; x80] !! (4 * 1)%nat = Some x00
  /\ [x01; x02; x03; x04; x00; x00; x00; x80] !! (4 * 1 + 1)%nat = Some x00
  /\ [x01; x02; x03; x04; x00; x00; x00; x80] !! (4 * 1 + 2)%nat = Some x00
  /\ [x01; x02; x03; x04; x00; x00; x00; x80] !! (4 * 1 + 3)%nat = Some x80
  /\ exists ch x R,
       ConvertToFloat32 [x01; x02; x03; x04; x00; x00; x00; x80] 32 = Some ([ch], None)
       /\ ch !! 1%nat = Some x
       /\ (f32_to_Q x == R # 2147483648)%Q
       /\ Z.abs (R - -2147483648) <= 64.
Proof.
  do 4 (split; [reflexivity|]).
  destruct (convert32_sample [x01; x02; x03; x04; x00; x00; x00; x80] 1
              x00 x00 x00 x80 eq_refl eq_refl eq_refl eq_refl)
    as (ch & x & R & Hc & Hx & _ & HQ & Hn & _).
  exists ch, x, R. repeat (split; [assumption|]). exact Hn.
Defined.

Lemma binary_round_top (s : bool) (p : positive) :
  2 ^ 31 - 64 <= Z.pos p < 2 ^ 31 ->
  binary_round f32_prec f32_emax s p 0 = S754_finite s 8388608 8.
Proof.
  intros Hp. change (2 ^ 31) with 2147483648 in Hp.
  assert (Hd : Z.pos (digits2_pos p) = 31).
  { apply digits2_pos_unique. change (2 ^ (31 - 1)) with 1073741824.
    change (2 ^ 31) with 2147483648. lia. }
  destruct (binary_round_large_val s p) as [_ Hbr]; [lia|].
  cbv zeta in Hbr. rewrite Hd in Hbr. change (31 - 24) with 7 in Hbr.
  assert (Hm : round_half_even (Z.pos p) 7 = 16777216).
  { unfold round_half_even. change (2 ^ 7) with 128. change (2 ^ (7 - 1)) with 64.
    assert (Hq : Z.pos p / 128 = 16777215) by (Z.div_mod_to_equations; lia).
    assert (Hr : 64 <= Z.pos p mod 128) by (Z.div_mod_to_equations; lia).
    rewrite Hq. destruct (Z.ltb_spec (Z.pos p mod 128) 64); [lia|].
    destruct (Z.ltb_spec 64 (Z.pos p mod 128)); done. }
  rewrite Hm in Hbr. exact Hbr.
Qed.

Lemma Q_num_eq (a b : Z) (n : positive) : (a # n == b # n)%Q -> a = b.
Proof. unfold Qeq. cbn [Qnum Qden]. nia. Qed.

(** The ends of the range at depth 32: which integer samples decode to
    exactly +1.0 and to exactly -1.0. *)
Lemma sample32_saturation (s : Z) :
  - 2 ^ 31 <= s < 2 ^ 31 ->
  let x := f32_div (float32_of_int s) (float32_of_int (2 ^ 31)) in
  (x = f32_one <-> 2 ^ 31 - 64 <= s)
  /\ (x = f32_minus_one <-> s <= - 2 ^ 31 + 64).
Proof.
  intros Hs x.
  pose proof (sample_value_rounded 31 s 2147483648 ltac:(by right; right)
                eq_refl ltac:(lia)) as HQ. fold x in HQ.
  destruct (float32_int_value_near s ltac:(lia)) as [Hnear _].
  change (2 ^ 31) with 2147483648 in *.
  split; split.
  - intros Hx. rewrite Hx in HQ.
    change (f32_to_Q f32_one) with (8388608 # 8388608)%Q in HQ.
    assert (float32_int_value s = 2147483648); [|lia].
    apply (Q_num_eq _ _ 2147483648). rewrite <- HQ. reflexivity.
  - intros Hge. destruct s as [|p|p]; [lia| |lia].
    unfold x, float32_of_int, binary_normalize.
    rewrite binary_round_top by (change (2 ^ 31) with 2147483648; lia).
    reflexivity.
  - intros Hx. rewrite Hx in HQ.
    change (f32_to_Q f32_minus_one) with (-8388608 # 8388608)%Q in HQ.
    assert (float32_int_value s = -2147483648); [|lia].
    apply (Q_num_eq _ _ 2147483648). rewrite <- HQ. reflexivity.
  - intros Hle. destruct s as [|p|p]; [lia|lia|].
    destruct (Z.eq_dec (Z.pos p) 2147483648) as [Heq|Hne].
    + assert (p = 2147483648%positive) as -> by lia. reflexivity.
    + unfold x, float32_of_int, binary_normalize.
      rewrite binary_round_top by (change (2 ^ 31) with 2147483648; lia).
      reflexivity.
Qed.

(** X2. At depth 32 a sample decodes to exactly +1.0 precisely when its
    signed integer is one of the 64 largest, [2^31 - 64] or more, and to
    exactly -1.0 precisely when it is [-2^31 + 64] or less. *)
Theorem convert32_saturation (sample : list byte) (i : nat) (b0 b1 b2 b3 : byte) :
  sample !! (4 * i)%nat = Some b0 -> sample !! (4 * i + 1)%nat = Some b1 ->
  sample !! (4 * i + 2)%nat = Some b2 -> sample !! (4 * i + 3)%nat = Some b3 ->
  let s := signed 32 (byte_val b0 + 256 * byte_val b1 + 65536 * byte_val b2
                      + 16777216 * byte_val b3) in
  exists ch,
    ConvertToFloat32 sample 32 = Some ([ch], None)
    /\ (ch !! i = Some f32_one <-> 2147483584 <= s)
    /\ (ch !! i = Some f32_minus_one <-> s <= -2147483584).
Proof.
  intros H0 H1 H2 H3 s.
  exists (pcm_decode 4 sample).
  split; [by apply (ConvertToFloat32_supported sample 32); right; right|].
  rewrite pcm_decode_lookup by (by apply (lookup_index_lt sample 4 i 3 b3)).
  rewrite (pcm_sample32 sample i b0 b1 b2 b3 H0 H1 H2 H3).
  assert (Hs : le_signed 32 [b0; b1; b2; b3] = s).
  { unfold le_signed, s. cbn [le_unsigned]. f_equal. lia. }
  pose proof (le_signed_pow2_range 4 [b0; b1; b2; b3] eq_refl ltac:(lia)) as Hr.
  change (8 * Z.of_nat 4 - 1) with 31 in Hr. change (8 * Z.of_nat 4) with 32 in Hr.
  rewrite Hs in *.
  destruct (sample32_saturation s Hr) as [[Hp1 Hp2] [Hm1 Hm2]].
  change (2 ^ 31 - 64) with 2147483584 in *.
  change (- 2 ^ 31 + 64) with (-2147483584) in *.
  split; split; intros H.
  - apply Hp1. by injection H.
  - f_equal. by apply Hp2.
  - apply Hm1. by injection H.
  - f_equal. by apply Hm2.
Qed.

Lemma convert32_saturation_witness :
  [xc0; xff; xff; x7f] !! (4 * 0)%nat = Some xc0
  /\ [xc0; xff; xff; x7f] !! (4 * 0 + 1)%nat = Some xff
  /\ [xc0; xff; xff; x7f] !! (4 * 0 + 2)%nat = Some xff
  /\ [xc0; xff; xff; x7f] !! (4 * 0 + 3)%nat = Some x7f
  /\ exists ch,
       ConvertToFloat32 [xc0; xff; xff; x7f] 32 = Some ([ch], None)
       /\ ch !! 0%nat = Some f32_one.
Proof.
  do 4 (split; [reflexivity|]).
  destruct (convert32_saturation [xc0; xff; xff; x7f] 0 xc0 xff xff x7f
              eq_refl eq_refl eq_refl eq_refl) as (ch & Hc & Hone & _).
  exists ch. split; [exact Hc|]. apply Hone. vm_compute. discriminate.
Defined.

(** ** Buffers *)

Lemma width_cases (d : Z) :
  d = 16 \/ d = 24 \/ d = 32 ->
  Z.to_nat (d / 8) = 2%nat \/ Z.to_nat (d / 8) = 3%nat \/ Z.to_nat (d / 8) = 4%nat.
Proof. intros [->|[->| ->]]; [by left | right; by left | right; by right]. Qed.

(** X3. Trailing bytes that do not make a whole sample have no effect:
    for a supported depth, a buffer decodes as its longest prefix made of
    whole samples. *)
Theorem ConvertToFloat32_whole_samples (sample : list byte) (d : Z) :
  d = 16 \/ d = 24 \/ d = 32 ->
  let w := Z.to_nat (d / 8) in
  ConvertToFloat32 sample d
  = ConvertToFloat32 (take (length sample / w * w) sample) d.
Proof.
  intros Hd w. rewrite !ConvertToFloat32_supported by done. fold w.
  assert (Hw : (0 < w)%nat) by (destruct (width_cases d Hd) as [H|[H|H]]; unfold w; lia).
  pose proof (div_mul_le (length sample) w Hw) as Hle.
  set (k := (length sample / w)%nat) in *.
  rewrite <- (take_drop (k * w) sample) at 1.
  assert (Hlen : length (take (k * w) sample) = (k * w)%nat)
    by (rewrite length_take; lia).
  rewrite pcm_decode_app; [|done|by rewrite Hlen, Nat.Div0.mod_mul].
  assert (Hrest : pcm_decode w (drop (k * w) sample) = []).
  { unfold pcm_decode. rewrite length_drop.
    pose proof (Nat.div_mod_eq (length sample) w) as Hdm. fold k in Hdm.
    pose proof (Nat.mod_upper_bound (length sample) w ltac:(lia)) as Hub.
    replace (length sample - k * w)%nat with (length sample mod w)%nat by lia.
    by rewrite Nat.div_small by done. }
  by rewrite Hrest, app_nil_r.
Qed.

Lemma ConvertToFloat32_whole_samples_witness :
  ConvertToFloat32 [x00; x80; xff; x7f; x01] 16
  = ConvertToFloat32 [x00; x80; xff; x7f] 16.
Proof.
  exact (ConvertToFloat32_whole_samples [x00; x80; xff; x7f; x01] 16
           (or_introl eq_refl)).
Defined.

Lemma le_unsigned_zeros (n : nat) : le_unsigned (replicate n x00) = 0.
Proof. induction n as [|n IH]; [done|]. cbn [replicate le_unsigned]. rewrite IH. done. Qed.

Lemma le_signed_zero_bytes (w : Z) (n : nat) :
  0 < w -> le_signed w (replicate n x00) = 0.
Proof.
  intros Hw. unfold le_signed, signed. rewrite le_unsigned_zeros.
  assert (0 < 2 ^ (w - 1)) by (apply Z.pow_pos_nonneg; lia).
  by destruct (Z.ltb_spec 0 (2 ^ (w - 1))); [|lia].
Qed.

(** X4. Silence decodes to silence: for a supported depth, a buffer of
    [n] zero bytes decodes to [n / (d/8)] samples, all +0.0. *)
Theorem ConvertToFloat32_zeros (n : nat) (d : Z) :
  d = 16 \/ d = 24 \/ d = 32 ->
  ConvertToFloat32 (replicate n x00) d
  = Some ([replicate (n / Z.to_nat (d / 8)) f32_zero], None).
Proof.
  intros Hd. rewrite ConvertToFloat32_supported by done.
  set (w := Z.to_nat (d / 8)).
  assert (Hw : w = 2%nat \/ w = 3%nat \/ w = 4%nat) by (by apply width_cases).
  do 3 f_equal. unfold pcm_decode. rewrite length_replicate.
  apply list_eq. intros i. rewrite list_lookup_fmap.
  destruct (Nat.lt_ge_cases i (n / w)) as [Hlt|Hge].
  - rewrite lookup_seq_lt, lookup_replicate_2 by done. cbn. f_equal.
    unfold pcm_sample, group.
    rewrite drop_replicate, take_replicate, le_signed_zero_bytes by lia.
    destruct Hw as [->|[->| ->]]; reflexivity.
  - rewrite lookup_seq_ge by done.
    symmetry. apply lookup_replicate_None. lia.
Qed.

Lemma ConvertToFloat32_zeros_witness :
  ConvertToFloat32 (replicate 7 x00) 24
  = Some ([replicate (7 / Z.to_nat (24 / 8)) f32_zero], None).
Proof.
  exact (ConvertToFloat32_zeros 7 24 (or_intror (or_introl eq_refl))).
Defined.

(** ** The shape of a sample *)

(** A non-zero integer sample gives a normal number of the same sign. *)
Lemma sample_normal (j z : Z) :
  j = 15 \/ j = 23 \/ j = 31 -> - 2 ^ j <= z <= 2 ^ j -> z <> 0 ->
  exists m e,
    f32_div (float32_of_int z) (float32_of_int (2 ^ j)) = S754_finite (z <? 0) m e
    /\ digits2_pos m = 24%positive
    /\ -54 <= e <= -23.
Proof.
  intros Hj Hz Hz0.
  assert (Hj' : 0 <= j <= 31) by lia.
  rewrite float32_of_pow2 by done.
  assert (Hgen : forall s p, Z.pos p <= 2 ^ j ->
    exists m e,
      f32_div (binary_round f32_prec f32_emax s p 0) (S754_finite false 8388608 (j - 23))
      = S754_finite s m e
      /\ digits2_pos m = 24%positive /\ -54 <= e <= -23).
  { intros s p Hp.
    destruct (binary_round_spec s p j Hj' Hp) as (m & e & -> & Hd & He & Hle & _).
    exists m, (e - j). rewrite f32_div_pow2 by (done || lia).
    split; [done|]. split; [done|]. lia. }
  destruct z as [|p|p]; [done| |]; apply Hgen; lia.
Qed.

Lemma pcm_sample_shape (w : nat) (sample : list byte) (i : nat) :
  w = 2%nat \/ w = 3%nat \/ w = 4%nat -> (i < length sample / w)%nat ->
  let z := le_signed (8 * Z.of_nat w) (group w sample i) in
  (z = 0 /\ pcm_sample w sample i = f32_zero)
  \/ (z <> 0 /\ exists m e,
        pcm_sample w sample i = S754_finite (z <? 0) m e
        /\ digits2_pos m = 24%positive /\ -54 <= e <= -23).
Proof.
  intros Hw Hi z.
  pose proof (group_length w sample i Hi) as Hlen.
  pose proof (le_signed_pow2_range w (group w sample i) Hlen ltac:(lia)) as Hr.
  fold z in Hr. unfold pcm_sample. fold z.
  assert (Hj : 8 * Z.of_nat w - 1 = 15 \/ 8 * Z.of_nat w - 1 = 23
               \/ 8 * Z.of_nat w - 1 = 31) by lia.
  set (j := 8 * Z.of_nat w - 1) in *.
  destruct (Z.eq_dec z 0) as [Hz0|Hz0].
  - left. split; [done|]. rewrite Hz0, float32_of_pow2 by done. apply sample_zero.
  - right. split; [done|]. apply sample_normal; [done|lia|done].
Qed.

(** X5. For a supported depth every decoded sample is +0.0 or a normal
    binary32 number: never a NaN, an infinity, a subnormal or -0.0. *)
Theorem ConvertToFloat32_normal (sample : list byte) (d : Z)
    (ch : list float32) (x : float32) :
  d = 16 \/ d = 24 \/ d = 32 ->
  ConvertToFloat32 sample d = Some ([ch], None) ->
  x ∈ ch ->
  valid_binary f32_prec f32_emax x = true
  /\ (SFclassify f32_prec x = PZero \/ SFclassify f32_prec x = PNormal
      \/ SFclassify f32_prec x = NNormal).
Proof.
  intros Hd Hconv Hx.
  rewrite ConvertToFloat32_supported in Hconv by done.
  injection Hconv as <-.
  unfold pcm_decode in Hx. apply list_elem_of_fmap in Hx as (i & -> & Hi).
  apply elem_of_seq in Hi.
  destruct (pcm_sample_shape (Z.to_nat (d / 8)) sample i (width_cases d Hd) ltac:(lia))
    as [[_ ->]|[_ (m & e & -> & Hm & He)]].
  - split; [done|by left].
  - split.
    + cbn [valid_binary]. unfold bounded, canonical_mantissa, fexp, emin,
        f32_prec, f32_emax. rewrite Hm.
      apply andb_true_intro. split; [apply Z.eqb_eq | apply Z.leb_le]; lia.
    + right. unfold SFclassify, f32_prec. rewrite Hm.
      destruct (_ <? _); [by right | by left].
Qed.

Lemma ConvertToFloat32_normal_witness :
  ConvertToFloat32 [x01; x00; x00; x00] 32
  = Some ([[S754_finite false 8388608 (-54)]], None)
  /\ S754_finite false 8388608 (-54) ∈ [S754_finite false 8388608 (-54)]
  /\ valid_binary f32_prec f32_emax (S754_finite false 8388608 (-54)) = true.
Proof.
  split; [reflexivity|]. split; [by left|].
  exact (proj1 (ConvertToFloat32_normal [x01; x00; x00; x00] 32
                  [S754_finite false 8388608 (-54)] (S754_finite false 8388608 (-54))
                  (or_intror (or_intror eq_refl)) eq_refl
                  (list_elem_of_here _ _))).
Defined.

Lemma le_unsigned_zero_iff (bs : list byte) :
  le_unsigned bs = 0 <-> bs = replicate (length bs) x00.
Proof.
  split.
  - induction bs as [|b bs IH]; [done|]. cbn [le_unsigned length replicate].
    intros H. pose proof (byte_val_range b). pose proof (le_unsigned_range bs).
    assert (byte_val b = 0) by lia. assert (le_unsigned bs = 0) by lia.
    f_equal; [by apply byte_val_zero | by apply IH].
  - intros ->. apply le_unsigned_zeros.
Qed.

Lemma le_unsigned_snoc (bs : list byte) (b : byte) :
  le_unsigned (bs ++ [b]) = le_unsigned bs + 2 ^ (8 * Z.of_nat (length bs)) * byte_val b.
Proof.
  induction bs as [|a bs IH].
  - cbn. lia.
  - cbn [app le_unsigned length]. rewrite IH.
    replace (8 * Z.of_nat (S (length bs))) with (8 + 8 * Z.of_nat (length bs)) by lia.
    rewrite Z.pow_add_r by lia. change (2 ^ 8) with 256. lia.
Qed.

(** The sign of a little-endian integer is the top bit of its last byte. *)
Lemma le_signed_neg_iff (bs : list byte) (b : byte) :
  le_signed (8 * Z.of_nat (length (bs ++ [b]))) (bs ++ [b]) < 0 <-> 128 <= byte_val b.
Proof.
  pose proof (le_unsigned_range (bs ++ [b])) as Hu.
  pose proof (le_unsigned_range bs) as Hlo. pose proof (byte_val_range b) as Hb.
  unfold le_signed, signed. rewrite le_unsigned_snoc in *.
  rewrite length_app in *. cbn [length] in *.
  replace (8 * Z.of_nat (length bs + 1) - 1) with (7 + 8 * Z.of_nat (length bs)) by lia.
  replace (8 * Z.of_nat (length bs + 1)) with (8 + 8 * Z.of_nat (length bs)) in * by lia.
  rewrite !Z.pow_add_r in * by lia.
  change (2 ^ 7) with 128. change (2 ^ 8) with 256 in *.
  assert (0 < 2 ^ (8 * Z.of_nat (length bs))) by (apply Z.pow_pos_nonneg; lia).
  set (P := 2 ^ (8 * Z.of_nat (length bs))) in *.
  destruct (Z.ltb_spec (le_unsigned bs + P * byte_val b) (128 * P)); split; nia.
Qed.

Lemma le_signed_zero_iff (bs : list byte) :
  (0 < length bs)%nat ->
  le_signed (8 * Z.of_nat (length bs)) bs = 0 <-> bs = replicate (length bs) x00.
Proof.
  intros Hlen. rewrite <- le_unsigned_zero_iff.
  pose proof (le_unsigned_range bs) as Hu.
  unfold le_signed, signed.
  assert (0 < 2 ^ (8 * Z.of_nat (length bs) - 1)) by (apply Z.pow_pos_nonneg; lia).
  destruct (Z.ltb_spec (le_unsigned bs) (2 ^ (8 * Z.of_nat (length bs) - 1))); lia.
Qed.

Lemma snoc_decomp (l : list byte) :
  (0 < length l)%nat -> exists l' b, l = l' ++ [b].
Proof.
  induction l as [|b l' _] using rev_ind; [cbn; lia|]. intros _. by exists l', b.
Qed.

(** X6. For a supported depth, a decoded sample is +0.0 exactly when all
    the bytes of its group are zero, and negative exactly when the top bit
    of the last byte of its group is set. *)
Theorem ConvertToFloat32_zero_sign (sample : list byte) (d : Z) (i : nat) :
  d = 16 \/ d = 24 \/ d = 32 ->
  let w := Z.to_nat (d / 8) in
  (i < length sample / w)%nat ->
  exists ch x,
    ConvertToFloat32 sample d = Some ([ch], None)
    /\ ch !! i = Some x
    /\ (x = f32_zero <-> group w sample i = replicate w x00)
    /\ (f32_ltb x f32_zero = true
        <-> 128 <= byte_val (default x00 (last (group w sample i)))).
Proof.
  intros Hd w Hi.
  exists (pcm_decode w sample), (pcm_sample w sample i).
  split; [by apply ConvertToFloat32_supported|].
  split; [by apply pcm_decode_lookup|].
  pose proof (width_cases d Hd) as Hw. fold w in Hw.
  pose proof (group_length w sample i Hi) as Hlen.
  destruct (pcm_sample_shape w sample i Hw Hi) as [[Hz ->]|[Hz (m & e & -> & _)]];
    rewrite <- Hlen in Hz at 1.
  - assert (Hzero : group w sample i = replicate w x00).
    { rewrite <- Hlen at 2. apply le_signed_zero_iff; [lia|done]. }
    split; [done|]. rewrite Hzero.
    split; [done|]. intros Hb. exfalso.
    assert (Hlast : last (replicate w x00) = Some x00)
      by (destruct Hw as [->|[->| ->]]; reflexivity).
    rewrite Hlast in Hb. cbn in Hb. lia.
  - split.
    + split; [done|]. intros Hzero. exfalso. apply Hz.
      apply le_signed_zero_iff; [lia|]. by rewrite Hlen.
    + destruct (snoc_decomp (group w sample i)) as (l & b & Hg); [lia|].
      assert (Hwl : Z.of_nat w = Z.of_nat (length (l ++ [b])))
        by (by rewrite <- Hg, Hlen).
      rewrite Hg, last_snoc. cbn [default]. unfold id.
      rewrite <- le_signed_neg_iff with (bs := l).
      unfold f32_ltb, SFltb, SFcompare, f32_zero. rewrite Hwl.
      destruct (Z.ltb_spec (le_signed (8 * Z.of_nat (length (l ++ [b]))) (l ++ [b])) 0);
        split; (done || lia).
Qed.

Lemma ConvertToFloat32_zero_sign_witness :
  (1 < length [x34; x12; x00; x80] / Z.to_nat (16 / 8))%nat
  /\ exists ch x,
       ConvertToFloat32 [x34; x12; x00; x80] 16 = Some ([ch], None)
       /\ ch !! 1%nat = Some x
       /\ f32_ltb x f32_zero = true.
Proof.
  assert (Hi : (1 < length [x34; x12; x00; x80] / Z.to_nat (16 / 8))%nat)
    by (vm_compute; lia).
  split; [exact Hi|].
  destruct (ConvertToFloat32_zero_sign [x34; x12; x00; x80] 16 1 (or_introl eq_refl) Hi)
    as (ch & x & Hc & Hx & _ & Hneg).
  exists ch, x. split; [exact Hc|]. split; [exact Hx|].
  apply Hneg. vm_compute. discriminate.
Defined.

(** ** Nothing is lost at depths 16 and 24 *)

Lemma byte_val_inj (b b' : byte) : byte_val b = byte_val b' -> b = b'.
Proof.
  unfold byte_val. intros H.
  assert (Hn : Byte.to_N b = Byte.to_N b') by lia.
  apply (f_equal Byte.of_N) in Hn. rewrite !Byte.of_to_N in Hn.
  by injection Hn.
Qed.

Lemma le_unsigned_inj (bs bs' : list byte) :
  length bs = length bs' -> le_unsigned bs = le_unsigned bs' -> bs = bs'.
Proof.
  revert bs'. induction bs as [|b bs IH]; intros [|b' bs'] Hlen Hu; try done.
  cbn [le_unsigned length] in *.
  pose proof (byte_val_range b). pose proof (byte_val_range b').
  assert (byte_val b = byte_val b') by lia.
  f_equal; [by apply byte_val_inj | apply IH; lia].
Qed.

Lemma le_signed_inj (w : Z) (bs bs' : list byte) :
  w = 8 * Z.of_nat (length bs) -> length bs = length bs' -> 0 < w ->
  le_signed w bs = le_signed w bs' -> bs = bs'.
Proof.
  intros Hw Hlen Hpos Hs. apply le_unsigned_inj; [done|].
  pose proof (le_unsigned_range bs) as Hu. pose proof (le_unsigned_range bs') as Hu'.
  rewrite <- Hlen in Hu'. rewrite <- Hw in Hu, Hu'.
  unfold le_signed, signed in Hs.
  assert (2 ^ w = 2 * 2 ^ (w - 1)) as Hp.
  { replace w with (1 + (w - 1)) at 1 by lia. by rewrite Z.pow_add_r by lia. }
  destruct (Z.ltb_spec (le_unsigned bs) (2 ^ (w - 1))),
           (Z.ltb_spec (le_unsigned bs') (2 ^ (w - 1))); lia.
Qed.

Lemma pcm_sample_inj (w : nat) (a b : list byte) (i : nat) :
  w = 2%nat \/ w = 3%nat ->
  (i < length a / w)%nat -> (i < length b / w)%nat ->
  pcm_sample w a i = pcm_sample w b i -> group w a i = group w b i.
Proof.
  intros Hw Ha Hb Heq.
  pose proof (group_length w a i Ha) as Hla.
  pose proof (group_length w b i Hb) as Hlb.
  pose proof (le_signed_pow2_range w _ Hla ltac:(lia)) as Hra.
  pose proof (le_signed_pow2_range w _ Hlb ltac:(lia)) as Hrb.
  unfold pcm_sample in Heq.
  set (za := le_signed (8 * Z.of_nat w) (group w a i)) in *.
  set (zb := le_signed (8 * Z.of_nat w) (group w b i)) in *.
  assert (Hj : 8 * Z.of_nat w - 1 = 15 \/ 8 * Z.of_nat w - 1 = 23) by lia.
  set (j := 8 * Z.of_nat w - 1) in *.
  assert (H24 : 2 ^ j < 2 ^ 24) by (apply Z.pow_lt_mono_r; lia).
  assert (Hpos : 0 < 2 ^ j) by (apply Z.pow_pos_nonneg; lia).
  assert (Hn : Z.pos (Z.to_pos (2 ^ j)) = 2 ^ j) by (apply Z2Pos.id; lia).
  pose proof (sample_value j za (Z.to_pos (2 ^ j)) ltac:(lia) Hn ltac:(lia) ltac:(lia)) as Qa.
  pose proof (sample_value j zb (Z.to_pos (2 ^ j)) ltac:(lia) Hn ltac:(lia) ltac:(lia)) as Qb.
  rewrite Heq in Qa. rewrite Qa in Qb. apply Q_num_eq in Qb.
  apply (le_signed_inj (8 * Z.of_nat w)); [by rewrite Hla|lia|lia|done].
Qed.

Lemma groups_eq (w k : nat) :
  (0 < w)%nat ->
  forall a b : list byte,
    length a = (k * w)%nat -> length b = (k * w)%nat ->
    (forall i, (i < k)%nat -> group w a i = group w b i) -> a = b.
Proof.
  intros Hw. induction k as [|k IH]; intros a b Ha Hb Hg.
  - destruct a, b; done.
  - rewrite <- (take_drop w a), <- (take_drop w b). f_equal.
    + apply (Hg 0%nat). lia.
    + apply IH; [rewrite length_drop; lia..|].
      intros i Hi. specialize (Hg (S i) ltac:(lia)).
      unfold group in *. rewrite !drop_drop.
      by replace (w + i * w)%nat with (S i * w)%nat by lia.
Qed.

(** X7. Decoding at depths 16 and 24 loses nothing: two buffers made of
    whole samples that decode to the same result are the same buffer. *)
Theorem ConvertToFloat32_lossless (d : Z) (a b : list byte) :
  d = 16 \/ d = 24 ->
  (length a mod Z.to_nat (d / 8) = 0)%nat ->
  (length b mod Z.to_nat (d / 8) = 0)%nat ->
  ConvertToFloat32 a d = ConvertToFloat32 b d ->
  a = b.
Proof.
  intros Hd Ha Hb Heq.
  rewrite !ConvertToFloat32_supported in Heq by (destruct Hd; auto).
  set (w := Z.to_nat (d / 8)) in *.
  assert (Hw : w = 2%nat \/ w = 3%nat) by (destruct Hd as [->| ->]; [by left|by right]).
  injection Heq as Heq.
  assert (Hk : (length a / w = length b / w)%nat)
    by (rewrite <- !pcm_decode_length; by rewrite Heq).
  pose proof (Nat.div_mod_eq (length a) w) as Hda.
  pose proof (Nat.div_mod_eq (length b) w) as Hdb.
  apply (groups_eq w (length a / w)); [lia|lia|lia|].
  intros i Hi. apply pcm_sample_inj; [done|done|lia|].
  assert (Hl : pcm_decode w a !! i = pcm_decode w b !! i) by (by rewrite Heq).
  rewrite !pcm_decode_lookup in Hl by lia. by injection Hl.
Qed.

Lemma ConvertToFloat32_lossless_witness :
  (length [x34; x12] mod Z.to_nat (16 / 8) = 0)%nat
  /\ ConvertToFloat32 [x34; x12] 16 = ConvertToFloat32 [x34; x12] 16
  /\ [x34; x12] = [x34; x12].
Proof.
  split; [reflexivity|]. split; [reflexivity|].
  exact (ConvertToFloat32_lossless 16 [x34; x12] [x34; x12]
           (or_introl eq_refl) eq_refl eq_refl eq_refl).
Defined.

(** ** A sample is determined by its value *)

Lemma f32_to_Q_inj_le (s s' : bool) (m m' : positive) (e e' : Z) :
  digits2_pos m = 24%positive -> digits2_pos m' = 24%positive -> e <= e' ->
  (f32_to_Q (S754_finite s m e) == f32_to_Q (S754_finite s' m' e'))%Q ->
  S754_finite s m e = S754_finite s' m' e'.
Proof.
  intros Hd Hd' Hle HQ. cbn [f32_to_Q] in HQ.
  pose proof (digits2_pos_bounds m) as Hb. pose proof (digits2_pos_bounds m') as Hb'.
  rewrite Hd in Hb. rewrite Hd' in Hb'.
  change (2 ^ (24 - 1)) with 8388608 in *. change (2 ^ 24) with 16777216 in *.
  set (k := e' - e).
  assert (Hk : 0 <= k) by (unfold k; lia).
  replace e' with (e + k) in HQ by (unfold k; lia).
  rewrite Qpower_plus in HQ by done.
  rewrite <- (Zpower_Qpower 2 k) in HQ by done.
  assert (HZ : ((if s then -1 else 1) * inject_Z (Z.pos m)
                == (if s' then -1 else 1) * inject_Z (Z.pos m') * inject_Z (2 ^ k))%Q).
  { apply (Qmult_inj_r _ _ (2 ^ e)%Q); [by apply Qpower_not_0|].
    rewrite HQ. ring. }
  assert (Hpk : 0 < 2 ^ k) by (apply Z.pow_pos_nonneg; lia).
  assert (Hint : (if s then -1 else 1) * Z.pos m
                 = (if s' then -1 else 1) * Z.pos m' * 2 ^ k).
  { apply inject_Z_injective. rewrite !inject_Z_mult.
    destruct s, s'; exact HZ. }
  assert (Hss : s = s') by (destruct s, s'; (done || nia)).
  subst s'.
  assert (Hk1 : 2 ^ k = 1).
  { assert (2 ^ k < 2) by (destruct s; nia). lia. }
  assert (Hk0 : k = 0).
  { destruct (Z.eq_dec k 0) as [|Hne]; [done|].
    assert (2 ^ 1 <= 2 ^ k) by (apply Z.pow_le_mono_r; lia).
    change (2 ^ 1) with 2 in *. lia. }
  f_equal; [destruct s; lia | unfold k in Hk0; lia].
Qed.

Lemma f32_to_Q_inj (s s' : bool) (m m' : positive) (e e' : Z) :
  digits2_pos m = 24%positive -> digits2_pos m' = 24%positive ->
  (f32_to_Q (S754_finite s m e) == f32_to_Q (S754_finite s' m' e'))%Q ->
  S754_finite s m e = S754_finite s' m' e'.
Proof.
  intros Hd Hd' HQ. destruct (Z.le_ge_cases e e').
  - by apply f32_to_Q_inj_le.
  - symmetry. apply f32_to_Q_inj_le; [done|done|lia|by symmetry].
Qed.

(** Shifting an integer sample left by whole bytes, with the divisor,
    does not change the quotient. *)
Lemma sample_shift (j j' z : Z) :
  j = 15 \/ j = 23 -> j' = 23 \/ j' = 31 -> j < j' ->
  - 2 ^ j <= z <= 2 ^ j ->
  f32_div (float32_of_int (z * 2 ^ (j' - j))) (float32_of_int (2 ^ j'))
  = f32_div (float32_of_int z) (float32_of_int (2 ^ j)).
Proof.
  intros Hj Hj' Hlt Hz.
  destruct (Z.eq_dec z 0) as [->|Hz0].
  { rewrite Z.mul_0_l, !float32_of_pow2 by lia. by rewrite !sample_zero. }
  assert (Hk : j' - j = 8 \/ j' - j = 16) by lia.
  assert (Hpk : 0 < 2 ^ (j' - j)) by (apply Z.pow_pos_nonneg; lia).
  assert (Hpj : 2 ^ j' = 2 ^ j * 2 ^ (j' - j))
    by (rewrite <- Z.pow_add_r by lia; f_equal; lia).
  set (t := z * 2 ^ (j' - j)) in *.
  assert (Ht : - 2 ^ j' <= t <= 2 ^ j') by (unfold t; nia).
  assert (Ht0 : t <> 0) by (unfold t; nia).
  assert (Hsign : (t <? 0) = (z <? 0)).
  { unfold t. destruct (Z.ltb_spec z 0), (Z.ltb_spec (z * 2 ^ (j' - j)) 0); (done || nia). }
  destruct (sample_normal j z ltac:(lia) Hz Hz0) as (m & e & Hx & Hd & _).
  destruct (sample_normal j' t ltac:(lia) Ht Ht0) as (m' & e' & Hx' & Hd' & _).
  assert (Hpos : 0 < 2 ^ j) by (apply Z.pow_pos_nonneg; lia).
  assert (Hpos' : 0 < 2 ^ j') by (apply Z.pow_pos_nonneg; lia).
  assert (H24 : 2 ^ j < 2 ^ 24) by (apply Z.pow_lt_mono_r; lia).
  pose proof (sample_value j z (Z.to_pos (2 ^ j)) ltac:(lia)
                ltac:(apply Z2Pos.id; lia) Hz ltac:(lia)) as HQ.
  pose proof (sample_value_rounded j' t (Z.to_pos (2 ^ j')) ltac:(lia)
                ltac:(apply Z2Pos.id; lia) Ht) as HQ'.
  assert (Hfiv : float32_int_value t = t).
  { destruct (Z.eq_dec j' 31) as [->|].
    - apply float32_int_value_near; [done|].
      unfold t. apply Z.mod_divide; [lia|].
      apply Z.divide_mul_r. destruct Hk as [-> | ->].
      + by exists 1.
      + by exists 256.
    - apply float32_int_value_small. assert (j' = 23) as -> by lia.
      assert (2 ^ 23 < 2 ^ 24) by done. lia. }
  rewrite Hfiv in HQ'.
  rewrite Hx, Hx' in *. rewrite Hsign.
  apply f32_to_Q_inj; [done|done|].
  rewrite Hsign in HQ'. rewrite HQ, HQ'.
  unfold Qeq. cbn [Qnum Qden]. rewrite !Z2Pos.id by lia. unfold t. nia.
Qed.

Lemma le_signed_pad (w : Z) (bs : list byte) :
  w = 8 * Z.of_nat (length bs) -> 0 < w ->
  le_signed (8 + w) (x00 :: bs) = le_signed w bs * 2 ^ 8.
Proof.
  intros Hw Hpos. pose proof (le_unsigned_range bs) as Hu. rewrite <- Hw in Hu.
  unfold le_signed, signed. cbn [le_unsigned]. change (byte_val x00) with 0.
  replace (8 + w - 1) with (8 + (w - 1)) by lia.
  rewrite !Z.pow_add_r by lia. change (2 ^ 8) with 256.
  assert (0 < 2 ^ (w - 1)) by (apply Z.pow_pos_nonneg; lia).
  destruct (Z.ltb_spec (le_unsigned bs) (2 ^ (w - 1))),
           (Z.ltb_spec (0 + 256 * le_unsigned bs) (256 * 2 ^ (w - 1))); lia.
Qed.

Lemma decode_one (w : nat) (bs : list byte) :
  (0 < w)%nat -> length bs = w ->
  pcm_decode w bs
  = [f32_div (float32_of_int (le_signed (8 * Z.of_nat w) bs))
             (float32_of_int (2 ^ (8 * Z.of_nat w - 1)))].
Proof.
  intros Hw Hlen. unfold pcm_decode. rewrite Hlen, Nat.div_same by lia.
  cbn [seq fmap list_fmap]. unfold pcm_sample, group.
  rewrite Nat.mul_0_l, drop_0, take_ge by lia. done.
Qed.

(** X8. Widening a sample with zero low bytes does not change what it
    decodes to: a 16-bit sample in a 24-bit or 32-bit container, and a
    24-bit sample in a 32-bit container, decode to the same [float32]. *)
Theorem ConvertToFloat32_zero_padding (b0 b1 b2 : byte) :
  ConvertToFloat32 [x00; b0; b1] 24 = ConvertToFloat32 [b0; b1] 16
  /\ ConvertToFloat32 [x00; x00; b0; b1] 32 = ConvertToFloat32 [b0; b1] 16
  /\ ConvertToFloat32 [x00; b0; b1; b2] 32 = ConvertToFloat32 [b0; b1; b2] 24.
Proof.
  rewrite !ConvertToFloat32_supported by auto.
  change (Z.to_nat (16 / 8)) with 2%nat. change (Z.to_nat (24 / 8)) with 3%nat.
  change (Z.to_nat (32 / 8)) with 4%nat.
  rewrite !decode_one by (done || lia).
  change (8 * Z.of_nat 2) with 16. change (8 * Z.of_nat 3) with (8 + 16).
  change (8 * Z.of_nat 4) with (8 + (8 + 16)).
  pose proof (le_signed_pow2_range 2 [b0; b1] eq_refl ltac:(lia)) as H16.
  pose proof (le_signed_pow2_range 3 [b0; b1; b2] eq_refl ltac:(lia)) as H24.
  change (8 * Z.of_nat 2 - 1) with 15 in H16. change (8 * Z.of_nat 2) with 16 in H16.
  change (8 * Z.of_nat 3 - 1) with 23 in H24. change (8 * Z.of_nat 3) with 24 in H24.
  change (8 + 16 - 1) with 23. change (8 + (8 + 16) - 1) with 31.
  change (16 - 1) with 15.
  rewrite (le_signed_pad (8 + 16) [x00; b0; b1]) by (done || lia).
  rewrite (le_signed_pad 16 [b0; b1]) by (done || lia).
  change (8 + (8 + 16)) with (8 + 24). change (8 + 16) with 24.
  rewrite (le_signed_pad 24 [b0; b1; b2]) by (done || lia).
  rewrite <- Z.mul_assoc.
  change (2 ^ 8 * 2 ^ 8) with (2 ^ (31 - 15)).
  change (2 ^ 8) with (2 ^ (23 - 15)) at 1.
  change (2 ^ 8) with (2 ^ (31 - 23)).
  rewrite (sample_shift 15 23) by (auto || lia).
  rewrite (sample_shift 15 31) by (auto || lia).
  rewrite (sample_shift 23 31) by (auto || lia).
  done.
Qed.

(** ** ProcessData on any input *)

Section ProcessDataMore.

Context {Detections : Type}.
Variable BitDepth : Z.
Variable ConvertTime : list byte -> Z -> Duration.

Implicit Types (bn : BirdNET Detections) (w : World Detections).
Implicit Types (data : list byte) (source : string).

Lemma ProcessData_on_inference_error bn data startTime source w samples results cause :
  ConvertToFloat32 data BitDepth = Some (samples, None) ->
  Predict bn samples = (results, Some cause) ->
  ProcessData BitDepth ConvertTime bn data startTime source w
  = Some (Some (Errorf_w "error predicting species: " cause),
          after_predict BitDepth ConvertTime bn data samples w).
Proof.
  intros Hconv Hpred.
  unfold ProcessData, mbind, M_bind, bind, time_Now, call_ConvertToFloat32,
    call_Predict, mret, M_ret, ret.
  rewrite Hconv. cbn. rewrite Hpred. cbn.
  reflexivity.
Qed.

Lemma ProcessData_on_conversion_error bn data startTime source w samples err :
  ConvertToFloat32 data BitDepth = Some (samples, Some err) ->
  ProcessData BitDepth ConvertTime bn data startTime source w
  = Some (Some (Errorf_w ("error converting " +:+ pretty BitDepth
                          +:+ " bit PCM data to float32: ") err),
          elapse (ConvertTime data BitDepth) w).
Proof.
  intros Hconv.
  unfold ProcessData, mbind, M_bind, bind, time_Now, call_ConvertToFloat32,
    mret, M_ret, ret.
  rewrite Hconv. reflexivity.
Qed.

(** [ConvertToFloat32] never panics, whatever the depth. *)
Lemma ConvertToFloat32_total (sample : list byte) (d : Z) :
  (exists ch, (d = 16 \/ d = 24 \/ d = 32)
              /\ ConvertToFloat32 sample d = Some ([ch], None))
  \/ (d <> 16 /\ d <> 24 /\ d <> 32
      /\ ConvertToFloat32 sample d
         = Some ([], Some (errorString "unsupported audio bit depth"))).
Proof.
  destruct (Z.eq_dec d 16) as [H16|H16]; [|destruct (Z.eq_dec d 24) as [H24|H24];
    [|destruct (Z.eq_dec d 32) as [H32|H32]]].
  - left. eexists. split; [by left|]. apply ConvertToFloat32_supported. by left.
  - left. eexists. split; [right; by left|]. apply ConvertToFloat32_supported. right; by left.
  - left. eexists. split; [right; by right|]. apply ConvertToFloat32_supported. right; by right.
  - right. repeat (split; [done|]). unfold ConvertToFloat32.
    destruct (Z.eqb_spec d 16); [done|]. destruct (Z.eqb_spec d 24); [done|].
    by destruct (Z.eqb_spec d 32).
Qed.

(** X9. Whatever the buffer, the depth and the engine, [ProcessData]
    returns without panic; it leaves the capacity of the queue alone, keeps
    the queued messages in place and in order, adds at most one message,
    never fills the queue beyond its capacity, and logs at most the one
    line "Queue is full!". *)
Theorem ProcessData_queue_invariant bn data startTime source w :
  exists r w',
    ProcessData BitDepth ConvertTime bn data startTime source w = Some (r, w')
    /\ chan_cap (ResultsQueue w') = chan_cap (ResultsQueue w)
    /\ (exists new, chan_buf (ResultsQueue w') = chan_buf (ResultsQueue w) ++ new
                    /\ (length new <= 1)%nat)
    /\ ((length (chan_buf (ResultsQueue w)) <= chan_cap (ResultsQueue w))%nat ->
        (length (chan_buf (ResultsQueue w')) <= chan_cap (ResultsQueue w'))%nat)
    /\ (logged w' = logged w \/ logged w' = logged w ++ ["Queue is full!"]).
Proof.
  destruct (ConvertToFloat32_total data BitDepth)
    as [(ch & _ & Hconv)|(_ & _ & _ & Hconv)].
  - destruct (Predict bn [ch]) as [results [cause|]] eqn:Hpred.
    + rewrite (ProcessData_on_inference_error _ _ _ _ _ _ _ _ Hconv Hpred).
      eexists _, _. split; [reflexivity|]. cbn.
      split; [done|]. split; [exists []; split; [by rewrite app_nil_r | cbn; lia]|]. split; [done|by left].
    + rewrite (ProcessData_success _ _ _ _ _ _ _ _ _ Hconv Hpred).
      destruct (Nat.lt_ge_cases (length (chan_buf (ResultsQueue w)))
                  (chan_cap (ResultsQueue w))) as [Hroom|Hfull].
      * rewrite send_room by done. eexists _, _. split; [reflexivity|]. cbn.
        split; [done|]. split; [eexists [_]; split; [reflexivity | cbn; lia]|].
        split; [rewrite length_app; cbn; lia | by left].
      * rewrite send_full by done. eexists _, _. split; [reflexivity|]. cbn.
        split; [done|]. split; [exists []; split; [by rewrite app_nil_r | cbn; lia]|].
        split; [done | by right].
  - rewrite (ProcessData_on_conversion_error _ _ _ _ _ _ _ Hconv).
    eexists _, _. split; [reflexivity|]. cbn.
    split; [done|]. split; [exists []; split; [by rewrite app_nil_r | cbn; lia]|]. split; [done|by left].
Qed.

Lemma ProcessData_predicts_once_aux bn data startTime source w samples :
  ConvertToFloat32 data BitDepth = Some (samples, None) ->
  exists r w',
    ProcessData BitDepth ConvertTime bn data startTime source w = Some (r, w')
    /\ predicted w' = predicted w ++ [samples]
    /\ (r = None <-> snd (Predict bn samples) = None).
Proof.
  intros Hconv. destruct (Predict bn samples) as [results [cause|]] eqn:Hpred.
  - rewrite (ProcessData_on_inference_error _ _ _ _ _ _ _ _ Hconv Hpred).
    eexists _, _. split; [reflexivity|]. split; [reflexivity|].
    cbn. split; discriminate.
  - rewrite (ProcessData_success _ _ _ _ _ _ _ _ _ Hconv Hpred).
    destruct (Nat.lt_ge_cases (length (chan_buf (ResultsQueue w)))
                (chan_cap (ResultsQueue w))) as [Hroom|Hfull].
    + rewrite send_room by done. eexists _, _. split; [reflexivity|]. done.
    + rewrite send_full by done. eexists _, _. split; [reflexivity|]. done.
Qed.

(** X10. With a supported depth [ProcessData] calls [Predict] exactly
    once, on the decoded samples, whether [Predict] then succeeds or
    fails: a failed inference is not retried. *)
Theorem ProcessData_predicts_once bn data startTime source w :
  BitDepth = 16 \/ BitDepth = 24 \/ BitDepth = 32 ->
  exists samples r w',
    ConvertToFloat32 data BitDepth = Some (samples, None)
    /\ ProcessData BitDepth ConvertTime bn data startTime source w = Some (r, w')
    /\ predicted w' = predicted w ++ [samples]
    /\ (r = None <-> snd (Predict bn samples) = None).
Proof.
  intros Hd.
  pose proof (ConvertToFloat32_supported data BitDepth Hd) as Hconv.
  destruct (ProcessData_predicts_once_aux bn data startTime source w _ Hconv)
    as (r & w' & Hrun & Hp & Hr).
  by eexists _, r, w'.
Qed.

(** X11. A buffer shorter than one sample, the empty buffer included,
    is not rejected: it decodes to one empty channel, and [ProcessData]
    still runs [Predict] on it. *)
Theorem ProcessData_short_buffer bn data startTime source w :
  BitDepth = 16 \/ BitDepth = 24 \/ BitDepth = 32 ->
  (length data < Z.to_nat (BitDepth / 8))%nat ->
  ConvertToFloat32 data BitDepth = Some ([[]], None)
  /\ exists r w',
       ProcessData BitDepth ConvertTime bn data startTime source w = Some (r, w')
       /\ predicted w' = predicted w ++ [[[]]].
Proof.
  intros Hd Hshort.
  assert (Hconv : ConvertToFloat32 data BitDepth = Some ([[]], None)).
  { rewrite ConvertToFloat32_supported by done. unfold pcm_decode.
    by rewrite Nat.div_small by done. }
  split; [done|].
  destruct (ProcessData_predicts_once_aux bn data startTime source w [[]] Hconv)
    as (r & w' & Hrun & Hp & _).
  by exists r, w'.
Qed.

End ProcessDataMore.

(** ** A run of calls *)

Section ProcessAllProps.

Context {Detections : Type}.
Variable BitDepth : Z.
Variable ConvertTime : list byte -> Z -> Duration.

Implicit Types (bn : BirdNET Detections) (w : World Detections).

(** X12. Drop the newest: when the depth is supported and the engine
    never fails, a run of calls returns no error, queues the buffers in
    the order of the calls for as long as the queue has room, sheds every
    later one, and logs one line for each buffer shed. *)
Theorem ProcessAll_fills_then_sheds bn (bufs : list (list byte * Time * string)) w :
  BitDepth = 16 \/ BitDepth = 24 \/ BitDepth = 32 ->
  (forall samples, snd (Predict bn samples) = None) ->
  (length (chan_buf (ResultsQueue w)) <= chan_cap (ResultsQueue w))%nat ->
  let room := (chan_cap (ResultsQueue w) - length (chan_buf (ResultsQueue w)))%nat in
  exists w',
    ProcessAll BitDepth ConvertTime bn bufs w
    = Some (replicate (length bufs) None, w')
    /\ chan_cap (ResultsQueue w') = chan_cap (ResultsQueue w)
    /\ origin <$> chan_buf (ResultsQueue w')
       = (origin <$> chan_buf (ResultsQueue w)) ++ take room bufs
    /\ logged w' = logged w ++ replicate (length bufs - room) "Queue is full!".
Proof.
  intros Hd Hok. revert w.
  induction bufs as [|[[data startTime] source] rest IH]; intros w Hcap room.
  - exists w. cbn. rewrite take_nil, !app_nil_r. done.
  - pose proof (ConvertToFloat32_supported data BitDepth Hd) as Hconv.
    set (samples := [pcm_decode (Z.to_nat (BitDepth / 8)) data]) in *.
    destruct (Predict bn samples) as [results err] eqn:Hpred.
    assert (err = None) as -> by (specialize (Hok samples); by rewrite Hpred in Hok).
    cbn [ProcessAll]. unfold bind at 1.
    rewrite (ProcessData_success _ _ _ _ _ _ _ _ _ Hconv Hpred).
    destruct (Nat.lt_ge_cases (length (chan_buf (ResultsQueue w)))
                (chan_cap (ResultsQueue w))) as [Hroom|Hfull].
    + rewrite send_room by done.
      match goal with |- context [bind _ _ ?w1] => set (w1' := w1) end.
      destruct (IH w1') as (w' & Hrun & Hc & Hbuf & Hlog).
      { unfold w1'. cbn. rewrite length_app. cbn. lia. }
      exists w'. unfold bind at 1. rewrite Hrun. unfold ret.
      split; [done|]. split; [by rewrite Hc|].
      unfold w1' in Hbuf, Hlog. cbn in Hbuf, Hlog.
      rewrite length_app in Hbuf, Hlog. cbn [length] in Hbuf, Hlog.
      split.
      * rewrite Hbuf, fmap_app. cbn [fmap list_fmap]. rewrite <- app_assoc. f_equal.
        unfold room. destruct (chan_cap (ResultsQueue w)
                               - length (chan_buf (ResultsQueue w)))%nat as [|n] eqn:Hn;
          [lia|].
        cbn [take app]. unfold origin at 1, message. cbn. do 2 f_equal. lia.
      * rewrite Hlog. f_equal. unfold room. cbn [length]. f_equal. lia.
    + rewrite send_full by done.
      match goal with |- context [bind _ _ ?w1] => set (w1' := w1) end.
      destruct (IH w1') as (w' & Hrun & Hc & Hbuf & Hlog).
      { unfold w1'. cbn. lia. }
      exists w'. unfold bind at 1. rewrite Hrun. unfold ret.
      split; [done|]. split; [by rewrite Hc|].
      unfold w1' in Hbuf, Hlog. cbn in Hbuf, Hlog.
      assert (Hr0 : room = 0%nat) by (unfold room; lia).
      replace (chan_cap (ResultsQueue w) - length (chan_buf (ResultsQueue w)))%nat
        with 0%nat in * by lia.
      rewrite Hr0. split.
      * rewrite Hbuf. by rewrite !take_0.
      * rewrite Hlog, <- app_assoc. f_equal. cbn [length].
        rewrite !Nat.sub_0_r. done.
Qed.

End ProcessAllProps.

(** Three buffers into a queue of capacity two. *)
Lemma ProcessAll_fills_then_sheds_witness :
  (forall samples, snd (Predict bn_ok samples) = None)
  /\ exists w',
       ProcessAll 16 convert_5ns bn_ok
         [([x00; x80], 1, "a"); ([xff; x7f], 2, "b"); ([x01; x00], 3, "c")] (world0 2)
       = Some ([None; None; None], w')
       /\ origin <$> chan_buf (ResultsQueue w')
          = [([x00; x80], 1, "a"); ([xff; x7f], 2, "b")]
       /\ logged w' = ["Queue is full!"].
Proof.
  assert (Hok : forall samples, snd (Predict bn_ok samples) = None) by done.
  split; [exact Hok|].
  destruct (ProcessAll_fills_then_sheds 16 convert_5ns bn_ok
              [([x00; x80], 1, "a"); ([xff; x7f], 2, "b"); ([x01; x00], 3, "c")]
              (world0 2) (or_introl eq_refl) Hok)
    as (w' & Hrun & _ & Hbuf & Hlog); [cbn; lia|].
  exists w'. split; [exact Hrun|]. split; [exact Hbuf | exact Hlog].
Defined.

Lemma ProcessData_predicts_once_witness :
  exists samples r w',
    ConvertToFloat32 [x00; x80] 16 = Some (samples, None)
    /\ ProcessData 16 convert_5ns bn_fail [x00; x80] 42 "mic" (world0 1) = Some (r, w')
    /\ predicted w' = [samples]
    /\ (r = None <-> snd (Predict bn_fail samples) = None).
Proof.
  exact (ProcessData_predicts_once 16 convert_5ns bn_fail [x00; x80] 42 "mic"
           (world0 1) (or_introl eq_refl)).
Defined.

Lemma ProcessData_short_buffer_witness :
  (length [x7f] < Z.to_nat (16 / 8))%nat
  /\ ConvertToFloat32 [x7f] 16 = Some ([[]], None)
  /\ exists r w',
       ProcessData 16 convert_5ns bn_ok [x7f] 42 "mic" (world0 1) = Some (r, w')
       /\ predicted w' = [[[]]].
Proof.
  assert (Hshort : (length [x7f] < Z.to_nat (16 / 8))%nat) by (vm_compute; lia).
  split; [exact Hshort|].
  exact (ProcessData_short_buffer 16 convert_5ns bn_ok [x7f] 42 "mic" (world0 1)
           (or_introl eq_refl) Hshort).
Defined.
